(** * The ZooKeeper input of categraf: a shallow embedding of
    [inputs/zookeeper/zookeeper.go] and the properties of its probe
    parsers.

    Go strings are byte strings: a [string] here is a sequence of 8-bit
    [ascii] bytes, so multi-byte UTF-8 text is a run of bytes above 127.
    The sample list, the log and the connections a task touches are an
    explicit [World] threaded through a small task monad in which an
    out-of-range index panics. *)

From Stdlib Require Import String Ascii List ZArith Lia Bool.
From stdpp Require Import base gmap strings.
Import ListNotations.

Open Scope string_scope.

(** ** Bytes *)

Definition byte_of (n : nat) : ascii := ascii_of_nat n.

(** The double quote, which a string literal of this file cannot hold. *)
Definition dquote : ascii := byte_of 34.
Definition newline : ascii := byte_of 10.

(** [quoted s] is [s] between two double quotes. *)
Definition quoted (s : string) : string := String dquote (s ++ String dquote "").

Definition is_digit (c : ascii) : bool :=
  let n := nat_of_ascii c in (48 <=? n)%nat && (n <=? 57)%nat.

(** What [.] matches in a Go regular expression without the [s] flag. *)
Definition not_newline (c : ascii) : bool := negb (Ascii.eqb c newline).

(** ** Package [strings] *)

Module strings.

(** [strings.Contains(s, substr)]. *)
Fixpoint Contains (s substr : string) : bool :=
  if String.prefix substr s then true
  else match s with
       | EmptyString => false
       | String _ s' => Contains s' substr
       end.

(** [strings.Split(s, sep)] for a separator of one byte, which is what
    both call sites pass. The result is never empty: a string without the
    separator is returned as the only element. *)
Fixpoint Split (s : string) (sep : ascii) : list string :=
  match s with
  | EmptyString => [EmptyString]
  | String c s' =>
      if Ascii.eqb c sep then EmptyString :: Split s' sep
      else match Split s' sep with
           | h :: t => String c h :: t
           | [] => [String c EmptyString]
           end
  end.

(** The number of bytes of the white space rune that starts [s], [0] when
    [s] starts with none. [unicode.IsSpace] holds of tab, line feed,
    vertical tab, form feed, carriage return, space, U+0085, U+00A0,
    U+1680, U+2000 to U+200A, U+2028, U+2029, U+202F, U+205F and U+3000;
    the cases below are their UTF-8 encodings. *)
Definition spaceWidth (s : string) : nat :=
  match s with
  | EmptyString => 0
  | String c0 r0 =>
      let b0 := nat_of_ascii c0 in
      if ((9 <=? b0) && (b0 <=? 13) || (b0 =? 32))%nat then 1
      else match r0 with
           | EmptyString => 0
           | String c1 r1 =>
               let b1 := nat_of_ascii c1 in
               if ((b0 =? 194) && ((b1 =? 133) || (b1 =? 160)))%nat then 2
               else match r1 with
                    | EmptyString => 0
                    | String c2 _ =>
                        let b2 := nat_of_ascii c2 in
                        if ((b0 =? 225) && (b1 =? 154) && (b2 =? 128)
                            || (b0 =? 226) && (b1 =? 128)
                               && ((128 <=? b2) && (b2 <=? 138)
                                   || (b2 =? 168) || (b2 =? 169) || (b2 =? 175))
                            || (b0 =? 226) && (b1 =? 129) && (b2 =? 159)
                            || (b0 =? 227) && (b1 =? 128) && (b2 =? 128))%nat
                        then 3 else 0
                    end
           end
  end.

Definition flush (cur : string) (rest : list string) : list string :=
  match cur with
  | EmptyString => rest
  | _ => cur :: rest
  end.

(** The scan of [strings.Fields]: [cur] is the field being read and
    [skip] the bytes left of a white space rune already recognised. *)
Fixpoint fieldsFrom (cur : string) (skip : nat) (s : string) : list string :=
  match s with
  | EmptyString => flush cur []
  | String c s' =>
      match skip with
      | S k => fieldsFrom cur k s'
      | O =>
          match spaceWidth s with
          | O => fieldsFrom (cur ++ String c EmptyString) 0 s'
          | S w => flush cur (fieldsFrom EmptyString w s')
          end
      end
  end.

(** [strings.Fields(s)]: the maximal runs of bytes between white space. *)
Definition Fields (s : string) : list string := fieldsFrom EmptyString 0 s.

(** [strings.NewReplacer("-", "_", ".", "_").Replace(s)]: every pair has
    one byte on each side, so the replacer rewrites byte by byte. *)
Fixpoint ReplaceBytes (pairs : list (ascii * ascii)) (s : string) : string :=
  match s with
  | EmptyString => EmptyString
  | String c s' =>
      let c' := match find (fun p => Ascii.eqb (fst p) c) pairs with
                | Some p => snd p
                | None => c
                end in
      String c' (ReplaceBytes pairs s')
  end.

End strings.

(** ** Package [strconv] *)

Module strconv.

Fixpoint digitsValue (acc : Z) (s : string) : option Z :=
  match s with
  | EmptyString => Some acc
  | String c s' =>
      if is_digit c
      then digitsValue (10 * acc + Z.of_nat (nat_of_ascii c - 48)) s'
      else None
  end.

(** [strconv.Atoi(s)] with a 64-bit [int]: an optional sign, then one or
    more decimal digits, and a value that fits in the type; [None] is a
    non-nil error. *)
Definition Atoi (s : string) : option Z :=
  let '(neg, ds) :=
    match s with
    | String c r =>
        if Ascii.eqb c "+"%char then (false, r)
        else if Ascii.eqb c "-"%char then (true, r)
        else (false, s)
    | EmptyString => (false, s)
    end in
  match ds with
  | EmptyString => None
  | _ =>
      match digitsValue 0 ds with
      | Some n =>
          let v := if neg then (- n)%Z else n in
          if ((- 2 ^ 63 <=? v) && (v <=? 2 ^ 63 - 1))%Z then Some v else None
      | None => None
      end
  end.

End strconv.

(** ** Package [regexp]

    The three patterns of the file use literals, [^], [$], capture groups
    and greedy repetitions of a single character class, so a pattern is a
    list of such nodes. Matching is by backtracking, which is the
    leftmost-first match Go's engine returns; the capture array [cap] is
    the engine's own: slots [2n] and [2n+1] bound group [n], group 0
    being the whole match. *)

Module regexp.

Inductive Node : Type :=
| Lit (c : ascii)                (* one literal byte *)
| Star (cls : ascii -> bool)     (* greedy cls* *)
| Plus (cls : ascii -> bool)     (* greedy cls+ *)
| Lparen (n : nat)               (* the left bracket of group n *)
| Rparen (n : nat)               (* the right bracket of group n *)
| Bol                            (* ^ : the start of the text *)
| Eol.                           (* $ : the end of the text *)

Definition Regexp : Type := list Node.

Definition Caps : Type := list (option nat).

(** Greedy repetition: take one more byte of the class when the rest of
    the pattern still matches after it, and stop here otherwise. *)
Fixpoint greedy (cls : ascii -> bool) (k : nat -> string -> option Caps)
    (pos : nat) (s : string) : option Caps :=
  match s with
  | String c s' =>
      if cls c
      then match greedy cls k (S pos) s' with
           | Some r => Some r
           | None => k pos s
           end
      else k pos s
  | EmptyString => k pos s
  end.

(** [step re pos s cap]: match [re] against [s], the text from offset
    [pos] on. *)
Fixpoint step (re : Regexp) (pos : nat) (s : string) (cap : Caps) : option Caps :=
  match re with
  | [] => Some (<[1 := Some pos]> cap)
  | Lit c :: re' =>
      match s with
      | String c' s' => if Ascii.eqb c c' then step re' (S pos) s' cap else None
      | EmptyString => None
      end
  | Star cls :: re' => greedy cls (fun p t => step re' p t cap) pos s
  | Plus cls :: re' =>
      match s with
      | String c s' =>
          if cls c then greedy cls (fun p t => step re' p t cap) (S pos) s' else None
      | EmptyString => None
      end
  | Lparen n :: re' => step re' pos s (<[2 * n := Some pos]> cap)
  | Rparen n :: re' => step re' pos s (<[2 * n + 1 := Some pos]> cap)
  | Bol :: re' => if (pos =? 0)%nat then step re' pos s cap else None
  | Eol :: re' =>
      match s with
      | EmptyString => step re' pos s cap
      | String _ _ => None
      end
  end.

(** The number of capture groups of a pattern. *)
Fixpoint NumSubexp (re : Regexp) : nat :=
  match re with
  | [] => 0
  | Lparen _ :: re' => S (NumSubexp re')
  | _ :: re' => NumSubexp re'
  end.

(** The unanchored search: the match at the leftmost offset that has one. *)
Fixpoint search (re : Regexp) (ncap : nat) (pos : nat) (s : string) : option Caps :=
  match step re pos s (<[0 := Some pos]> (replicate ncap None)) with
  | Some cap => Some cap
  | None =>
      match s with
      | String _ s' => search re ncap (S pos) s'
      | EmptyString => None
      end
  end.

(** The text of group [n], empty when the group took no part. *)
Definition group (s : string) (cap : Caps) (n : nat) : string :=
  match cap !! (2 * n)%nat, cap !! (2 * n + 1)%nat with
  | Some (Some a), Some (Some b) => String.substring a (b - a) s
  | _, _ => EmptyString
  end.

(** [re.FindStringSubmatch(s)]: the match and its groups, [nil] when
    there is no match. *)
Definition FindStringSubmatch (re : Regexp) (s : string) : list string :=
  match search re (2 * S (NumSubexp re)) 0 s with
  | Some cap => map (group s cap) (seq 0 (S (NumSubexp re)))
  | None => []
  end.

End regexp.

(** ** Samples, log lines and the world of a task *)

(** What the file hands to [inputs.NewSample] as a value: the constants
    [0] and [1], the text of a [mntr] value, or the seconds of a
    [time.Duration], kept as its nanoseconds. *)
Inductive Value : Type :=
| IntValue (n : Z)
| StringValue (s : string)
| SecondsValue (nanos : Z).

Record Sample : Type := mkSample {
  Metric : string;
  SampleValue : Value;
  Tags : list (gmap string string)
}.

(** Modelled from the spec: [inputs.NewSample(metric, value, labels...)]
    is not among the source files. The spec's measurement is a name, a
    numeric-or-string value and its tags; a sample keeps the three
    arguments as the call site passes them, the global tags first and the
    measurement's own tags, when it has some, after them. *)
Definition NewSample (metric : string) (value : Value)
    (labels : list (gmap string string)) : Sample :=
  mkSample metric value labels.

(** The log calls of the file, one constructor for each format. *)
Inductive LogLine : Type :=
| LogNoTarget (cluster : string)
    (* "E! no target zookeeper cluster %s addresses specified" *)
| LogConnectErr (zkHost err : string)
    (* "E! :"+zkHost, "err:", err *)
| LogCommandNotAllowed (cmd addr : string)
    (* commandNotAllowedTmpl: "warning: %q command isn't allowed at %q, ..." *)
| LogNotDigit (key value : string)
    (* "warning: skipping metric %q which holds not-digit value: %q" *)
| LogExecFailed (cmd : string)
    (* "E! failed to exec Zookeeper command:", cmd *)
| LogReadFailed (cmd addr err : string).
    (* "E! failed read Zookeeper command: '%s' response from '%s': %s" *)

Inductive Severity : Type := ErrorLevel | WarningLevel.

(** The level a line announces: the ["E!"] or ["warning:"] its format
    starts with. *)
Definition severity (l : LogLine) : Severity :=
  match l with
  | LogNoTarget _ | LogConnectErr _ _ | LogExecFailed _ | LogReadFailed _ _ _ => ErrorLevel
  | LogCommandNotAllowed _ _ | LogNotDigit _ _ => WarningLevel
  end.

(** An open [net.Conn]. The file writes one command to a connection and
    reads it to the end once, so a connection is the outcome of that write
    and of that read: [ioutil.ReadAll] returns the bytes it got together
    with the error that stopped it, if any. *)
Record Conn : Type := mkConn {
  RemoteAddr : string;
  WriteErr : option string;
  ReadData : string;
  ReadErr : option string
}.

(** What a task did to its connections. *)
Inductive WireEvent : Type :=
| Wrote (addr cmd : string)
| ReadAll (addr : string)
| Closed (addr : string).

(** The state a task acts on: the shared sample list, the log, the
    traffic on the wire and the wait group's counter. Each list has its
    most recent entry first, as [PushFront] leaves the sample list. *)
Record World : Type := mkWorld {
  slist : list Sample;
  logged : list LogLine;
  wire : list WireEvent;
  wg : Z
}.

(** ** The task monad: state and panics *)

(** A computation returns the world it leaves and its result, [None]
    when it panicked; the world of a panic is the one reached when it was
    raised. *)
Definition Task (A : Type) : Type := World -> World * option A.

Definition ret {A : Type} (a : A) : Task A := fun w => (w, Some a).

Definition panic {A : Type} : Task A := fun w => (w, None).

Definition bind {A B : Type} (m : Task A) (k : A -> Task B) : Task B :=
  fun w =>
    match m w with
    | (w', Some a) => k a w'
    | (w', None) => (w', None)
    end.

Notation "x <- m ;; k" := (bind m (fun x => k))
  (at level 100, m at next level, right associativity).
Notation "m ;;; k" := (bind m (fun _ => k))
  (at level 100, right associativity).

(** [defer d body]: Go runs a deferred call when the function returns
    and also when it panics, and the panic goes on after it. *)
Definition defer {A : Type} (d : Task unit) (body : Task A) : Task A :=
  fun w =>
    match body w with
    | (w', r) =>
        match d w' with
        | (w'', Some _) => (w'', r)
        | (w'', None) => (w'', None)
        end
    end.

(** [l[i]]: an index out of range panics. *)
Definition index {A : Type} (l : list A) (i : nat) : Task A :=
  match nth_error l i with
  | Some x => ret x
  | None => panic
  end.

Definition PushFront (s : Sample) : Task unit :=
  fun w => (mkWorld (s :: slist w) (logged w) (wire w) (wg w), Some tt).

Definition Log (l : LogLine) : Task unit :=
  fun w => (mkWorld (slist w) (l :: logged w) (wire w) (wg w), Some tt).

Definition Wire (e : WireEvent) : Task unit :=
  fun w => (mkWorld (slist w) (logged w) (e :: wire w) (wg w), Some tt).

Definition wgDone : Task unit :=
  fun w => (mkWorld (slist w) (logged w) (wire w) (wg w - 1), Some tt).

(** [for _, x := range l { body x }], where [continue] is the body's
    return. *)
Fixpoint forRange {A : Type} (l : list A) (body : A -> Task unit) : Task unit :=
  match l with
  | [] => ret tt
  | x :: l' => body x ;;; forRange l' body
  end.

(** ** The [zookeeper] input *)

Import strings strconv regexp.

Definition cmdNotExecutedSffx : string :=
  "is not executed because it is not in the whitelist.".

Definition instanceNotServingMessage : string :=
  "This ZooKeeper instance is not currently serving requests".

(** The pattern [^([0-9]+\.[0-9]+\.[0-9]+).*$], node by node. *)
Definition versionRE : Regexp :=
  [Bol; Lparen 1; Plus is_digit; Lit "."; Plus is_digit; Lit "."; Plus is_digit; Rparen 1;
   Star not_newline; Eol].

(** The pattern of [labelsRE]: a left brace, group 1 holding any run of
    bytes without a line feed, a right brace. *)
Definition labelsRE : Regexp :=
  [Lit "{"; Lparen 1; Star not_newline; Rparen 1; Lit "}"].

(** The pattern of [labelRE]: group 1 holding any run of bytes without a
    line feed, an equals sign, then group 2 holding a double quote, any
    such run and a double quote. *)
Definition labelRE : Regexp :=
  [Lparen 1; Star not_newline; Rparen 1; Lit "="; Lparen 2; Lit dquote; Star not_newline;
   Lit dquote; Rparen 2].

(** [versionRE.ReplaceAllString(src, "$1")]. The pattern is anchored at
    both ends: it matches at most once, from the first byte of [src] to
    its last, so the result is the text of group 1; without a match [src]
    comes back as it is. *)
Definition versionRE_ReplaceAllString (src : string) : string :=
  match FindStringSubmatch versionRE src with
  | [_; g1] => g1
  | _ => src
  end.

(** [metricNameReplacer.Replace] *)
Definition metricNameReplacer_Replace (s : string) : string :=
  ReplaceBytes [("-"%char, "_"%char); ("."%char, "_"%char)] s.

Record Instance : Type := mkInstance {
  Addresses : string;
  Timeout : Z;
  ClusterName : string;
  Labels : gmap string string;
  UseTLS : bool
}.

Definition ZkHosts (i : Instance) : list string := Fields (Addresses i).

(** The network as one task meets it: what its [n]-th call of
    [ins.ZkConnect(host)] returns, an open connection or the error of the
    resolver, of the TLS configuration or of the dial. *)
Definition Network : Type := nat -> string -> Conn + string.

Definition ZkConnect (net : Network) (n : nat) (host : string) : Conn + string :=
  net n host.

Definition Close (conn : Conn) : Task unit := Wire (Closed (RemoteAddr conn)).

Definition sendZookeeperCmd (conn : Conn) (cmd : string) : Task string :=
  Wire (Wrote (RemoteAddr conn) cmd) ;;;
  match WriteErr conn with
  | Some _ => Log (LogExecFailed cmd)
  | None => ret tt
  end ;;;
  Wire (ReadAll (RemoteAddr conn)) ;;;
  match ReadErr conn with
  | Some err => Log (LogReadFailed cmd (RemoteAddr conn) err)
  | None => ret tt
  end ;;;
  ret (ReadData conn).

Definition parseLabels (in_ : string) : gmap string string :=
  let matchLables := FindStringSubmatch labelsRE in_ in
  if (1 <? length matchLables)%nat then
    let labelsStr := nth 1 matchLables EmptyString in
    fold_left
      (fun (labels : gmap string string) (labelStr : string) =>
         let m := FindStringSubmatch labelRE labelStr in
         if (length m =? 3)%nat
         then <[nth 1 m EmptyString := nth 2 m EmptyString]> labels
         else labels)
      (Split labelsStr ","%char) ∅
  else ∅.

Definition gatherRuokResult (conn : Conn) (ins : Instance)
    (globalTags : gmap string string) : Task unit :=
  res <- sendZookeeperCmd conn "ruok" ;;
  if String.eqb res "imok" then
    PushFront (NewSample "zk_ruok" (IntValue 1) [globalTags])
  else
    (if Contains res cmdNotExecutedSffx
     then Log (LogCommandNotAllowed "ruok" (RemoteAddr conn))
     else ret tt) ;;;
    PushFront (NewSample "zk_ruok" (IntValue 0) [globalTags]).

Section Zookeeper.

(** [strconv.ParseFloat(in, 64)] returns a nil error. Go's float
    grammar and its range check are the standard library's; the
    development holds for whatever strings it accepts. *)
Variable ParseFloat64_ok : string -> bool.

Definition isDigit (in_ : string) : bool :=
  match Atoi in_ with
  | Some _ => true
  | None => ParseFloat64_ok in_
  end.

(** The body of the loop over the lines of a [mntr] reply. *)
Definition mntrLine (globalTags : gmap string string) (l : string) : Task unit :=
  if String.eqb l "" then ret tt
  else
    let kv := Fields l in
    key <- index kv 0 ;;
    value <- index kv 1 ;;
    if String.eqb key "zk_server_state" then
      if String.eqb value "leader"
      then PushFront (NewSample "zk_server_leader" (IntValue 1) [globalTags])
      else PushFront (NewSample "zk_server_leader" (IntValue 0) [globalTags])
    else if String.eqb key "zk_version" then
      let version := versionRE_ReplaceAllString value in
      PushFront (NewSample "zk_version" (IntValue 1)
                   [globalTags; {["version" := version]}])
    else if String.eqb key "zk_peer_state" then
      PushFront (NewSample "zk_peer_state" (IntValue 1)
                   [globalTags; {["state" := value]}])
    else if negb (isDigit value) then
      Log (LogNotDigit key value)
    else
      let k := metricNameReplacer_Replace key in
      if Contains k "{" then
        let labels := parseLabels k in
        PushFront (NewSample k (StringValue value) [globalTags; labels])
      else
        PushFront (NewSample k (StringValue value) [globalTags]).

Definition gatherMntrResult (conn : Conn) (ins : Instance)
    (globalTags : gmap string string) : Task unit :=
  res <- sendZookeeperCmd conn "mntr" ;;
  let lines := Split res newline in
  line0 <- index lines 0 ;;
  if Contains line0 cmdNotExecutedSffx then
    PushFront (NewSample "zk_up" (IntValue 0) [globalTags]) ;;;
    Log (LogCommandNotAllowed "mntr" (RemoteAddr conn))
  else
    PushFront (NewSample "zk_up" (IntValue 1) [globalTags]) ;;;
    if String.eqb line0 instanceNotServingMessage then
      PushFront (NewSample "zk_server_leader" (IntValue 1) [globalTags])
    else
      forRange lines (mntrLine globalTags).

(** One host's task. [use] is [time.Since(begun)] as the deferred call
    reads it, in nanoseconds. *)
Definition gatherOnce (net : Network) (use : Z) (ins : Instance)
    (zkHost : string) : Task unit :=
  defer wgDone
    (let tags : gmap string string :=
       Labels ins ∪ <["zk_host" := zkHost]> {["zk_cluster" := ClusterName ins]} in
     defer (PushFront (NewSample "zk_scrape_use_seconds" (SecondsValue use) [tags]))
       match ZkConnect net 0 zkHost with
       | inr err =>
           PushFront (NewSample "zk_up" (IntValue 0) [tags]) ;;;
           Log (LogConnectErr zkHost err)
       | inl conn =>
           defer (Close conn)
             (gatherMntrResult conn ins tags ;;;
              match ZkConnect net 1 zkHost with
              | inr err =>
                  PushFront (NewSample "zk_ruok" (IntValue 0) [tags]) ;;;
                  Log (LogConnectErr zkHost err)
              | inl ruokConn =>
                  defer (Close ruokConn) (gatherRuokResult ruokConn ins tags)
              end)
       end).

End Zookeeper.

(** ** Vocabulary of the statements *)

(** The first line of a reply: [lines[0]] of [gatherMntrResult]. *)
Definition firstLine (res : string) : string := hd EmptyString (Split res newline).

(** The lines [sendZookeeperCmd] logs on a connection, the most recent
    first: one for a failed write, one for a failed read. *)
Definition transportLog (conn : Conn) (cmd : string) : list LogLine :=
  match ReadErr conn with
  | Some err => [LogReadFailed cmd (RemoteAddr conn) err]
  | None => []
  end ++
  match WriteErr conn with
  | Some _ => [LogExecFailed cmd]
  | None => []
  end.

(** The world [sendZookeeperCmd] leaves: the sample list is untouched. *)
Definition afterCmd (conn : Conn) (cmd : string) (w : World) : World :=
  mkWorld (slist w)
          (transportLog conn cmd ++ logged w)
          (ReadAll (RemoteAddr conn) :: Wrote (RemoteAddr conn) cmd :: wire w)
          (wg w).

(** Either read or write failed on the connection. *)
Definition transportFailed (conn : Conn) : bool :=
  match WriteErr conn, ReadErr conn with
  | None, None => false
  | _, _ => true
  end.

(** A line the loop of [gatherMntrResult] gets through: it is empty, or
    it has a key and a value. *)
Definition keyValueLine (l : string) : Prop :=
  l = EmptyString \/ (2 <= length (Fields l))%nat.

(** Every byte of [s] is in the class [cls]. *)
Fixpoint all_in (cls : ascii -> bool) (s : string) : bool :=
  match s with
  | EmptyString => true
  | String c s' => cls c && all_in cls s'
  end.

(** [v] starts with a dotted triplet of decimal numbers. *)
Definition tripletPrefix (v : string) : Prop :=
  exists a b c rest : string,
    v = a ++ "." ++ b ++ "." ++ c ++ rest
    /\ a <> EmptyString /\ b <> EmptyString /\ c <> EmptyString
    /\ all_in is_digit a = true /\ all_in is_digit b = true
    /\ all_in is_digit c = true.

(** [w'] holds the samples of [w] and possibly more recent ones. *)
Definition extends (w w' : World) : Prop :=
  exists new : list Sample, slist w' = (new ++ slist w)%list.

(** The tags of every sample of a host: [zk_host] and [zk_cluster],
    overridden by the instance's own labels. *)
Definition hostTags (ins : Instance) (zkHost : string) : gmap string string :=
  Labels ins ∪ <["zk_host" := zkHost]> {["zk_cluster" := ClusterName ins]}.

(** ** Inputs of the closed examples *)

(** The pattern [^[0-9]+\.[0-9]+$]. *)
Definition decimalRE : Regexp :=
  [Bol; Plus is_digit; Lit "."; Plus is_digit; Eol].

(** An instance of the float parser for the closed examples: the decimal
    literals [digits.digits] of at most 17 bytes. [strconv.ParseFloat]
    accepts every one of them, and it rejects the one other string an
    example hands to the parser, [leader]. *)
Definition shortDecimal (s : string) : bool :=
  (String.length s <=? 17)%nat
  && match FindStringSubmatch decimalRE s with
     | [] => false
     | _ => true
     end.

Definition emptyWorld : World := mkWorld [] [] [] 1.

Definition zk1 : string := "10.0.0.1:2181".

(** A connection whose peer answers [res] and closes. *)
Definition replying (res : string) : Conn := mkConn zk1 None res None.

(** A connection on which the read times out before any byte arrives. *)
Definition timedOut : Conn := mkConn zk1 None EmptyString (Some "i/o timeout").

Definition ins1 : Instance :=
  mkInstance zk1 10 "c1" {["region" := "eu"]} false.

Definition tags1 : gmap string string :=
  Labels ins1 ∪ <["zk_host" := zk1]> {["zk_cluster" := ClusterName ins1]}.

(** A reply made of the given lines: [strings.Join(ls, "\n")]. *)
Definition unlines (ls : list string) : string :=
  String.concat (String newline EmptyString) ls.

(** A follower's reply whose last line has a key and no value. *)
Definition followerReply : string :=
  unlines ["zk_version 3.5.2"; "zk_server_state follower"; "zk_znode_count"].

(** A network that refuses every connection. *)
Definition unreachable : Network := fun _ _ => inr "connection refused".

(** The label-bearing key [foo{bar="baz",qux="quux"}]. *)
Definition fooKey : string :=
  "foo{bar=" ++ quoted "baz" ++ ",qux=" ++ quoted "quux" ++ "}".

(** ** Vocabulary of the further properties *)

(** The ASCII white space of [strings.Fields]: tab, line feed, vertical
    tab, form feed, carriage return and space. *)
Definition asciiSpace (c : ascii) : bool :=
  let n := nat_of_ascii c in ((9 <=? n) && (n <=? 13) || (n =? 32))%nat.

Definition notSpace (c : ascii) : bool := negb (asciiSpace c).

(** [c] is none of the bytes of [bs]. *)
Definition noneOf (bs : list ascii) (c : ascii) : bool :=
  negb (existsb (Ascii.eqb c) bs).

Definition comma : ascii := ","%char.

(** A label as a [mntr] key spells it: the key, an equals sign and the
    value between double quotes. *)
Definition labelText (kv : string * string) : string :=
  fst kv ++ "=" ++ quoted (snd kv).

(** A key that carries the labels [kvs] after the name [name]. *)
Definition labelledKey (name : string) (kvs : list (string * string)) : string :=
  name ++ "{" ++ String.concat (String comma EmptyString) (map labelText kvs) ++ "}".

(** The map [parseLabels] builds for the labels [kvs], the later of two
    labels of one key winning. *)
Definition labelMap (kvs : list (string * string)) : gmap string string :=
  fold_left (fun (m : gmap string string) (kv : string * string) =>
               <[fst kv := quoted (snd kv)]> m) kvs ∅.

(** What a task may do to the world without touching a connection or the
    wait group: push samples and log lines. *)
Definition pushesAndLogs (w w' : World) : Prop :=
  extends w w'
  /\ (exists newer : list LogLine, logged w' = (newer ++ logged w)%list)
  /\ wire w' = wire w
  /\ wg w' = wg w.

(** The signs [strconv.Atoi] accepts before the digits. *)
Definition isSign (s : string) : Prop :=
  s = EmptyString \/ s = "+" \/ s = "-".

(** A key of the default case of the switch in [gatherMntrResult]. *)
Definition plainKey (key : string) : Prop :=
  key <> "zk_server_state" /\ key <> "zk_version" /\ key <> "zk_peer_state".

(** The sample of the scrape time of a host. *)
Definition scrapeSample (use : Z) (ins : Instance) (zkHost : string) : Sample :=
  NewSample "zk_scrape_use_seconds" (SecondsValue use) [hostTags ins zkHost].

(** The world [gatherRuokResult] leaves. *)
Definition afterRuok (conn : Conn) (tags : gmap string string) (w : World) : World :=
  mkWorld (NewSample "zk_ruok"
             (IntValue (if String.eqb (ReadData conn) "imok" then 1 else 0)) [tags]
             :: slist w)
          ((if Contains (ReadData conn) cmdNotExecutedSffx
            then [LogCommandNotAllowed "ruok" (RemoteAddr conn)]
            else [])
             ++ transportLog conn "ruok" ++ logged w)
          (ReadAll (RemoteAddr conn) :: Wrote (RemoteAddr conn) "ruok" :: wire w)
          (wg w).

(** A network that answers the first connection of a task with [c1] and
    refuses the second. *)
Definition onceOnly (c1 : Conn) : Network :=
  fun n _ => match n with
             | O => inl c1
             | S _ => inr "connection refused"
             end.

(** A network that answers the first connection of a task with [c1] and
    the second with [c2]. *)
Definition twice (c1 c2 : Conn) : Network :=
  fun n _ => match n with
             | O => inl c1
             | S _ => inl c2
             end.

(** A leader's reply to [mntr]. *)
Definition leaderReply : string :=
  unlines ["zk_version 3.5.2"; "zk_server_state leader"; "zk_znode_count 12"; ""].

(** [t] starts with a byte of the class [cls]. *)
Definition startsIn (cls : ascii -> bool) (t : string) : bool :=
  match t with
  | String c _ => cls c
  | EmptyString => false
  end.

(** How many bytes of [s] are [b]. *)
Fixpoint countByte (b : ascii) (s : string) : nat :=
  match s with
  | EmptyString => 0
  | String c s' => (if Ascii.eqb b c then 1 else 0) + countByte b s'
  end.

(** The labels a key may spell so that [parseLabels] reads them back:
    no line feed and no comma in a key or a value, and no double quote
    in a value. *)
Definition plainLabel (kv : string * string) : Prop :=
  all_in (noneOf [newline; comma]) (fst kv) = true
  /\ all_in (noneOf [newline; comma; dquote]) (snd kv) = true.

(** A label as it stands in a metric name: [metricNameReplacer] has
    gone over its key and its value. *)
Definition replacedLabel (kv : string * string) : string * string :=
  (metricNameReplacer_Replace (fst kv), metricNameReplacer_Replace (snd kv)).

(** ** The launches of [Gather] *)

Record Zookeeper : Type := mkZookeeper {
  Instances : list Instance;
  Counter : Z
}.

Definition wgAdd (n : Z) : Task unit :=
  fun w => (mkWorld (slist w) (logged w) (wire w) (wg w + n), Some tt).

(** The inner loop of [Gather]: one [wg.Add(1)] and one [go] statement
    for each host. The tasks started are returned in the order of their
    [go] statements, a task being the instance and the host handed to
    [gatherOnce]. *)
Fixpoint launchHosts (ins : Instance) (zkHosts : list string)
    : Task (list (Instance * string)) :=
  match zkHosts with
  | [] => ret []
  | zkHost :: more =>
      wgAdd 1 ;;;
      started <- launchHosts ins more ;;
      ret ((ins, zkHost) :: started)
  end.

(** The outer loop of [Gather] over the instances. *)
Fixpoint launchInstances (inss : list Instance) : Task (list (Instance * string)) :=
  match inss with
  | [] => ret []
  | ins :: more =>
      let zkHosts := ZkHosts ins in
      started <- (if (length zkHosts =? 0)%nat
                  then Log (LogNoTarget (ClusterName ins)) ;;; ret []
                  else launchHosts ins zkHosts) ;;
      later <- launchInstances more ;;
      ret (started ++ later)%list
  end.

(** [Gather] as far as [wg.Wait()]: what its own thread does. The
    counter is a [uint64] and wraps. *)
Definition Gather (z : Zookeeper) : Task (Zookeeper * list (Instance * string)) :=
  started <- launchInstances (Instances z) ;;
  ret (mkZookeeper (Instances z) ((Counter z + 1) mod 2 ^ 64), started).

(** The task of every host of every instance, instance by instance. *)
Definition hostTasks (inss : list Instance) : list (Instance * string) :=
  flat_map (fun ins => map (pair ins) (ZkHosts ins)) inss.

(** The instances without a host, the last of the list first. *)
Definition noTarget (inss : list Instance) : list LogLine :=
  rev (flat_map (fun ins => match ZkHosts ins with
                            | [] => [LogNoTarget (ClusterName ins)]
                            | _ :: _ => []
                            end) inss).

(** An instance whose address list is blank. *)
Definition insBlank : Instance := mkInstance "  " 10 "c0" ∅ false.

(** An instance of two hosts. *)
Definition ins2 : Instance :=
  mkInstance "10.0.0.1:2181 10.0.0.2:2181" 10 "c2" ∅ false.

(** ** The transport *)

Lemma Split_nonempty (s : string) (sep : ascii) :
  exists h t, Split s sep = h :: t.
Proof.
  induction s as [|c s IH]; simpl.
  - eauto.
  - destruct (Ascii.eqb c sep); [eauto|].
    destruct (Split s sep); eauto.
Qed.

Lemma Split_firstLine (res : string) :
  exists rest, Split res newline = firstLine res :: rest.
Proof.
  unfold firstLine. destruct (Split_nonempty res newline) as (h & t & E).
  rewrite E. simpl. eauto.
Qed.

Lemma sendZookeeperCmd_run (conn : Conn) (cmd : string) (w : World) :
  sendZookeeperCmd conn cmd w = (afterCmd conn cmd w, Some (ReadData conn)).
Proof.
  unfold sendZookeeperCmd, afterCmd, transportLog, bind, Wire, Log, ret.
  destruct (WriteErr conn), (ReadErr conn); reflexivity.
Qed.

(** C4, as the code has it: [sendZookeeperCmd] never returns an error
    value. Whatever the connection does, it returns the bytes read as
    text; a failed write and a failed read each leave one line in the
    log, the read is attempted after a failed write, and the sample list
    is not touched. *)
Theorem sendZookeeperCmd_returns_text (conn : Conn) (cmd : string) (w : World) :
  sendZookeeperCmd conn cmd w = (afterCmd conn cmd w, Some (ReadData conn))
  /\ slist (afterCmd conn cmd w) = slist w
  /\ (In (LogExecFailed cmd) (transportLog conn cmd) <-> WriteErr conn <> None)
  /\ (forall err, In (LogReadFailed cmd (RemoteAddr conn) err) (transportLog conn cmd)
                  <-> ReadErr conn = Some err).
Proof.
  split; [apply sendZookeeperCmd_run|].
  split; [reflexivity|].
  unfold transportLog.
  split.
  - destruct (WriteErr conn), (ReadErr conn); simpl; split;
      intros H; try congruence; try tauto;
      repeat (destruct H as [H|H]; try discriminate H); try contradiction.
  - intros err.
    destruct (WriteErr conn), (ReadErr conn); simpl; split;
      intros H; try discriminate H;
      repeat (destruct H as [H|H]; try discriminate H); try contradiction;
      try (injection H as ->; auto); try (left; congruence).
Qed.

(** C4, the claim as stated fails: a read that fails before any byte
    arrives and a valid empty reply give [sendZookeeperCmd] the same
    result, the empty string. *)
Lemma sendZookeeperCmd_empty_reply_ambiguous :
  transportFailed timedOut = true
  /\ transportFailed (replying EmptyString) = false
  /\ snd (sendZookeeperCmd timedOut "mntr" emptyWorld)
     = snd (sendZookeeperCmd (replying EmptyString) "mntr" emptyWorld).
Proof. repeat split. Qed.

(** ** The stats-summary parser: banners and the empty reply *)

(** [gatherMntrResult] once the command is sent and its reply split. *)
Lemma gatherMntrResult_lines (pf : string -> bool) (conn : Conn) (ins : Instance)
    (tags : gmap string string) (w : World) (rest : list string) :
  Split (ReadData conn) newline = firstLine (ReadData conn) :: rest ->
  gatherMntrResult pf conn ins tags w =
    (if Contains (firstLine (ReadData conn)) cmdNotExecutedSffx then
       PushFront (NewSample "zk_up" (IntValue 0) [tags]) ;;;
       Log (LogCommandNotAllowed "mntr" (RemoteAddr conn))
     else
       PushFront (NewSample "zk_up" (IntValue 1) [tags]) ;;;
       if String.eqb (firstLine (ReadData conn)) instanceNotServingMessage then
         PushFront (NewSample "zk_server_leader" (IntValue 1) [tags])
       else
         forRange (firstLine (ReadData conn) :: rest) (mntrLine pf tags))
      (afterCmd conn "mntr" w).
Proof.
  intros E. unfold gatherMntrResult at 1, bind at 1.
  rewrite sendZookeeperCmd_run, E. reflexivity.
Qed.

(** C5: when the first line of the reply contains the banner of a
    command that is not in the whitelist, [gatherMntrResult] pushes one
    sample, [zk_up] valued 0, and logs the command-not-allowed line
    after whatever the transport logged; no other line is parsed. That
    line is a warning, while the line of a failed connection is an error
    line of another format. *)
Theorem gatherMntrResult_command_not_allowed (pf : string -> bool) (conn : Conn)
    (ins : Instance) (tags : gmap string string) (w : World) :
  Contains (firstLine (ReadData conn)) cmdNotExecutedSffx = true ->
  gatherMntrResult pf conn ins tags w =
    (mkWorld (NewSample "zk_up" (IntValue 0) [tags] :: slist w)
             (LogCommandNotAllowed "mntr" (RemoteAddr conn)
                :: transportLog conn "mntr" ++ logged w)
             (wire (afterCmd conn "mntr" w))
             (wg w),
     Some tt)
  /\ severity (LogCommandNotAllowed "mntr" (RemoteAddr conn)) = WarningLevel
  /\ (forall host err,
        severity (LogConnectErr host err) = ErrorLevel
        /\ LogCommandNotAllowed "mntr" (RemoteAddr conn) <> LogConnectErr host err).
Proof.
  intros H. split; [|split; [reflexivity|intros; split; [reflexivity|discriminate]]].
  destruct (Split_firstLine (ReadData conn)) as [rest E].
  rewrite (gatherMntrResult_lines pf conn ins tags w rest E), H.
  reflexivity.
Qed.

Lemma gatherMntrResult_command_not_allowed_witness :
  Contains (firstLine (ReadData (replying ("mntr " ++ cmdNotExecutedSffx))))
           cmdNotExecutedSffx = true
  /\ slist (fst (gatherMntrResult shortDecimal (replying ("mntr " ++ cmdNotExecutedSffx))
                   ins1 tags1 emptyWorld))
     = [NewSample "zk_up" (IntValue 0) [tags1]].
Proof.
  split; [reflexivity|].
  destruct (gatherMntrResult_command_not_allowed shortDecimal
              (replying ("mntr " ++ cmdNotExecutedSffx)) ins1 tags1 emptyWorld eq_refl)
    as [E _].
  rewrite E. reflexivity.
Defined.

Lemma not_serving_no_banner :
  Contains instanceNotServingMessage cmdNotExecutedSffx = false.
Proof. vm_compute. reflexivity. Qed.

(** C3, as the code has it: when the first line of the reply is the
    not-serving message, [gatherMntrResult] pushes two samples, [zk_up]
    valued 1 and then [zk_server_leader] valued 1, and returns: the
    lines after the first are not parsed, whatever they hold. *)
Theorem gatherMntrResult_not_serving (pf : string -> bool) (conn : Conn)
    (ins : Instance) (tags : gmap string string) (w : World) :
  firstLine (ReadData conn) = instanceNotServingMessage ->
  gatherMntrResult pf conn ins tags w =
    (mkWorld (NewSample "zk_server_leader" (IntValue 1) [tags]
                :: NewSample "zk_up" (IntValue 1) [tags] :: slist w)
             (transportLog conn "mntr" ++ logged w)
             (wire (afterCmd conn "mntr" w))
             (wg w),
     Some tt).
Proof.
  intros H.
  destruct (Split_firstLine (ReadData conn)) as [rest E].
  rewrite (gatherMntrResult_lines pf conn ins tags w rest E), H.
  rewrite not_serving_no_banner, String.eqb_refl.
  reflexivity.
Qed.

Lemma gatherMntrResult_not_serving_witness :
  firstLine (ReadData (replying (instanceNotServingMessage ++ String newline "zk_version")))
  = instanceNotServingMessage
  /\ snd (gatherMntrResult shortDecimal
            (replying (instanceNotServingMessage ++ String newline "zk_version"))
            ins1 tags1 emptyWorld) = Some tt.
Proof.
  split; [reflexivity|].
  rewrite (gatherMntrResult_not_serving shortDecimal
             (replying (instanceNotServingMessage ++ String newline "zk_version"))
             ins1 tags1 emptyWorld eq_refl).
  reflexivity.
Defined.

(** C3, the claim as stated fails: on the reply that is the not-serving
    message alone the parser leaves two samples, and [zk_up] valued 1 is
    one of them. *)
Lemma gatherMntrResult_not_serving_two_samples :
  slist (fst (gatherMntrResult shortDecimal (replying instanceNotServingMessage)
                ins1 tags1 emptyWorld))
  = [NewSample "zk_server_leader" (IntValue 1) [tags1];
     NewSample "zk_up" (IntValue 1) [tags1]]
  /\ slist (fst (gatherMntrResult shortDecimal (replying instanceNotServingMessage)
                   ins1 tags1 emptyWorld))
     <> [NewSample "zk_server_leader" (IntValue 1) [tags1]].
Proof.
  assert (E : slist (fst (gatherMntrResult shortDecimal (replying instanceNotServingMessage)
                            ins1 tags1 emptyWorld))
              = [NewSample "zk_server_leader" (IntValue 1) [tags1];
                 NewSample "zk_up" (IntValue 1) [tags1]])
    by (vm_compute; reflexivity).
  split; [exact E|]. rewrite E. discriminate.
Qed.

(** C10: on the empty reply [gatherMntrResult] pushes one sample,
    [zk_up] valued 1, and nothing else, without a panic. A read or a
    write that failed before any byte arrived gives the same empty
    reply, so it is reported as up as well; only the transport's own log
    lines tell it apart. *)
Theorem gatherMntrResult_empty_reply (pf : string -> bool) (conn : Conn)
    (ins : Instance) (tags : gmap string string) (w : World) :
  ReadData conn = EmptyString ->
  gatherMntrResult pf conn ins tags w =
    (mkWorld (NewSample "zk_up" (IntValue 1) [tags] :: slist w)
             (transportLog conn "mntr" ++ logged w)
             (wire (afterCmd conn "mntr" w))
             (wg w),
     Some tt).
Proof.
  intros H.
  assert (E : Split (ReadData conn) newline = [firstLine (ReadData conn)])
    by (rewrite H; reflexivity).
  rewrite (gatherMntrResult_lines pf conn ins tags w [] E), H.
  reflexivity.
Qed.

Lemma gatherMntrResult_empty_reply_witness :
  ReadData timedOut = EmptyString
  /\ transportFailed timedOut = true
  /\ slist (fst (gatherMntrResult shortDecimal timedOut ins1 tags1 emptyWorld))
     = [NewSample "zk_up" (IntValue 1) [tags1]].
Proof.
  split; [reflexivity|]. split; [reflexivity|].
  rewrite (gatherMntrResult_empty_reply shortDecimal timedOut ins1 tags1 emptyWorld eq_refl).
  reflexivity.
Defined.

(** ** The liveness parser *)

Lemma imok_no_banner : Contains "imok" cmdNotExecutedSffx = false.
Proof. vm_compute. reflexivity. Qed.

(** C6: [gatherRuokResult] pushes one sample, [zk_ruok], valued 1 when
    the reply is exactly [imok] and 0 for any other reply; and, on a log
    that was empty, the command-not-allowed warning is logged if and
    only if the reply contains the banner of a command that is not in
    the whitelist. *)
Theorem gatherRuokResult_liveness (conn : Conn) (ins : Instance)
    (tags : gmap string string) (w : World) :
  gatherRuokResult conn ins tags w =
    (mkWorld (NewSample "zk_ruok"
                (IntValue (if String.eqb (ReadData conn) "imok" then 1 else 0)) [tags]
                :: slist w)
             ((if Contains (ReadData conn) cmdNotExecutedSffx
               then [LogCommandNotAllowed "ruok" (RemoteAddr conn)]
               else [])
                ++ transportLog conn "ruok" ++ logged w)
             (wire (afterCmd conn "ruok" w))
             (wg w),
     Some tt)
  /\ (In (LogCommandNotAllowed "ruok" (RemoteAddr conn))
         (logged (fst (gatherRuokResult conn ins tags
                         (mkWorld (slist w) [] (wire w) (wg w)))))
      <-> Contains (ReadData conn) cmdNotExecutedSffx = true).
Proof.
  assert (E : forall w0,
             gatherRuokResult conn ins tags w0 =
               (mkWorld (NewSample "zk_ruok"
                           (IntValue (if String.eqb (ReadData conn) "imok" then 1 else 0))
                           [tags] :: slist w0)
                        ((if Contains (ReadData conn) cmdNotExecutedSffx
                          then [LogCommandNotAllowed "ruok" (RemoteAddr conn)]
                          else [])
                           ++ transportLog conn "ruok" ++ logged w0)
                        (wire (afterCmd conn "ruok" w0))
                        (wg w0),
                Some tt)).
  { intros w0. unfold gatherRuokResult, bind at 1. rewrite sendZookeeperCmd_run.
    destruct (String.eqb (ReadData conn) "imok") eqn:E.
    - apply String.eqb_eq in E. rewrite E, imok_no_banner. reflexivity.
    - destruct (Contains (ReadData conn) cmdNotExecutedSffx); reflexivity. }
  split; [apply E|].
  rewrite E. cbn [fst logged]. rewrite app_nil_r.
  destruct (Contains (ReadData conn) cmdNotExecutedSffx).
  - split; [reflexivity|]. intros _. left. reflexivity.
  - split; [|discriminate]. cbn [app]. unfold transportLog.
    intros H. apply in_app_or in H.
    destruct (ReadErr conn), (WriteErr conn); simpl in H;
      repeat (destruct H as [H|H]; try discriminate H); contradiction.
Qed.

(** ** One host's task *)

(** C9: whatever happens to the task, a panic of the parser included,
    [gatherOnce] pushes [zk_scrape_use_seconds]; and when the first
    connection fails it pushes [zk_up] valued 0 before it, logs the
    error, and ends with no command written and nothing read. *)
Theorem gatherOnce_scrape_and_first_connect (pf : string -> bool) (net : Network)
    (use : Z) (ins : Instance) (zkHost : string) (w : World) :
  In (NewSample "zk_scrape_use_seconds" (SecondsValue use) [hostTags ins zkHost])
     (slist (fst (gatherOnce pf net use ins zkHost w)))
  /\ (forall err,
        ZkConnect net 0 zkHost = inr err ->
        gatherOnce pf net use ins zkHost w =
          (mkWorld (NewSample "zk_scrape_use_seconds" (SecondsValue use) [hostTags ins zkHost]
                      :: NewSample "zk_up" (IntValue 0) [hostTags ins zkHost] :: slist w)
                   (LogConnectErr zkHost err :: logged w)
                   (wire w)
                   (wg w - 1),
           Some tt)).
Proof.
  split.
  - unfold gatherOnce, defer at 1 2, hostTags.
    match goal with |- context [match ?b w with _ => _ end] => destruct (b w) as [w' r] end.
    simpl. left. reflexivity.
  - intros err E. unfold gatherOnce, hostTags. rewrite E. reflexivity.
Qed.

Lemma gatherOnce_scrape_and_first_connect_witness :
  ZkConnect unreachable 0 zk1 = inr "connection refused"
  /\ wire (fst (gatherOnce shortDecimal unreachable 1500 ins1 zk1 emptyWorld)) = []
  /\ slist (fst (gatherOnce shortDecimal unreachable 1500 ins1 zk1 emptyWorld))
     = [NewSample "zk_scrape_use_seconds" (SecondsValue 1500) [tags1];
        NewSample "zk_up" (IntValue 0) [tags1]].
Proof.
  split; [reflexivity|].
  destruct (gatherOnce_scrape_and_first_connect shortDecimal unreachable 1500 ins1 zk1
              emptyWorld) as [_ H].
  rewrite (H _ eq_refl). split; reflexivity.
Defined.

(** ** The patterns *)

Lemma greedy_some (cls : ascii -> bool) (k : nat -> string -> option Caps) :
  forall (s : string) (pos : nat) (r : Caps),
    greedy cls k pos s = Some r ->
    exists a t, s = a ++ t /\ all_in cls a = true
                /\ k (pos + String.length a)%nat t = Some r.
Proof.
  induction s as [|c s IH]; intros pos r H; simpl in H.
  - exists EmptyString, EmptyString. simpl. rewrite Nat.add_0_r. auto.
  - destruct (cls c) eqn:Ec.
    + destruct (greedy cls k (S pos) s) eqn:Eg.
      * injection H as <-.
        destruct (IH _ _ Eg) as (a & t & -> & Ha & Hk).
        exists (String c a), t. simpl. rewrite Ec, Ha.
        rewrite <- plus_n_Sm. auto.
      * exists EmptyString, (String c s). simpl. rewrite Nat.add_0_r. auto.
    + exists EmptyString, (String c s). simpl. rewrite Nat.add_0_r. auto.
Qed.

(** A [Plus] node takes a non-empty run of its class. *)
Lemma step_Plus (cls : ascii -> bool) (re : Regexp) (pos : nat) (s : string)
    (cap r : Caps) :
  step (Plus cls :: re) pos s cap = Some r ->
  exists a t, s = a ++ t /\ a <> EmptyString /\ all_in cls a = true
              /\ step re (pos + String.length a)%nat t cap = Some r.
Proof.
  simpl. destruct s as [|c s]; [discriminate|].
  destruct (cls c) eqn:Ec; [|discriminate].
  intros H. apply greedy_some in H. destruct H as (a & t & -> & Ha & Hk).
  exists (String c a), t. simpl. rewrite Ec, Ha.
  rewrite <- plus_n_Sm. repeat split; auto; discriminate.
Qed.

Lemma step_Lit (c : ascii) (re : Regexp) (pos : nat) (s : string) (cap r : Caps) :
  step (Lit c :: re) pos s cap = Some r ->
  exists t, s = String c t /\ step re (S pos) t cap = Some r.
Proof.
  simpl. destruct s as [|c' s]; [discriminate|].
  destruct (Ascii.eqb c c') eqn:E; [|discriminate].
  apply Ascii.eqb_eq in E. subst c'. eauto.
Qed.

(** A pattern that starts with [^] matches at offset 0 or nowhere. *)
Lemma search_Bol (re : Regexp) (ncap : nat) :
  forall (s : string) (pos : nat), search (Bol :: re) ncap (S pos) s = None.
Proof.
  induction s as [|c s IH]; intros pos; simpl; auto.
Qed.

Lemma versionRE_match_prefix (s : string) (cap r : Caps) :
  step versionRE 0 s cap = Some r -> tripletPrefix s.
Proof.
  unfold versionRE. intros H.
  change (step (Plus is_digit :: Lit "." :: Plus is_digit :: Lit "." :: Plus is_digit
                  :: Rparen 1 :: Star not_newline :: Eol :: nil) 0 s
               (<[2 * 1 := Some 0]> cap) = Some r)%nat in H.
  apply step_Plus in H. destruct H as (a & t1 & -> & Na & Da & H).
  apply step_Lit in H. destruct H as (t2 & -> & H).
  apply step_Plus in H. destruct H as (b & t3 & -> & Nb & Db & H).
  apply step_Lit in H. destruct H as (t4 & -> & H).
  apply step_Plus in H. destruct H as (c & t5 & -> & Nc & Dc & _).
  exists a, b, c, t5. repeat split; auto.
Qed.

Lemma search_unfold (re : Regexp) (ncap pos : nat) (s : string) :
  search re ncap pos s =
    match step re pos s (<[0 := Some pos]> (replicate ncap None)) with
    | Some cap => Some cap
    | None =>
        match s with
        | String _ s' => search re ncap (S pos) s'
        | EmptyString => None
        end
    end.
Proof. destruct s; reflexivity. Qed.

Lemma versionRE_no_prefix (v : string) :
  ~ tripletPrefix v -> FindStringSubmatch versionRE v = [].
Proof.
  intros N. unfold FindStringSubmatch.
  destruct (search versionRE (2 * S (NumSubexp versionRE)) 0 v) as [r|] eqn:E;
    [|reflexivity].
  exfalso. apply N.
  rewrite search_unfold in E.
  match type of E with
  | match ?m with _ => _ end = _ => destruct m as [r'|] eqn:Em
  end.
  - eapply versionRE_match_prefix. exact Em.
  - destruct v as [|c v]; [discriminate|].
    unfold versionRE in E. rewrite search_Bol in E. discriminate.
Qed.

(** ** One line of the stats summary *)

Lemma Fields_nonempty_line (l k : string) (r : list string) :
  Fields l = k :: r -> String.eqb l EmptyString = false.
Proof.
  destruct l; [discriminate|reflexivity].
Qed.

(** C7: the version pattern turns [3.5.2-beta] into [3.5.2] and
    leaves a value without a leading dotted triplet of numbers as it
    is; and a line whose key is [zk_version] pushes [zk_version] valued
    1, with the normalized value as its [version] tag. *)
Theorem version_normalization :
  versionRE_ReplaceAllString "3.5.2-beta" = "3.5.2"
  /\ (forall v, ~ tripletPrefix v -> versionRE_ReplaceAllString v = v)
  /\ (forall (pf : string -> bool) (tags : gmap string string) (l v : string)
             (rest : list string) (w : World),
        Fields l = "zk_version" :: v :: rest ->
        mntrLine pf tags l w =
          (mkWorld (NewSample "zk_version" (IntValue 1)
                      [tags; {["version" := versionRE_ReplaceAllString v]}] :: slist w)
                   (logged w) (wire w) (wg w),
           Some tt)).
Proof.
  split; [vm_compute; reflexivity|]. split.
  - intros v N. unfold versionRE_ReplaceAllString.
    rewrite (versionRE_no_prefix v N). reflexivity.
  - intros pf tags l v rest w E. unfold mntrLine.
    rewrite (Fields_nonempty_line _ _ _ E), E. reflexivity.
Qed.

Lemma beta_no_triplet : ~ tripletPrefix "beta".
Proof.
  intros (a & b & c & rest & E & Na & _ & _ & Da & _).
  destruct a as [|x a]; [congruence|].
  simpl in E. injection E as <- _. discriminate Da.
Qed.

Lemma version_normalization_witness :
  Fields "zk_version 3.5.2-beta" = ["zk_version"; "3.5.2-beta"]
  /\ slist (fst (mntrLine shortDecimal tags1 "zk_version 3.5.2-beta" emptyWorld))
     = [NewSample "zk_version" (IntValue 1) [tags1; {["version" := "3.5.2"]}]]
  /\ versionRE_ReplaceAllString "beta" = "beta".
Proof.
  destruct version_normalization as (_ & Hsame & Hline).
  split; [reflexivity|]. split.
  - rewrite (Hline shortDecimal tags1 "zk_version 3.5.2-beta" "3.5.2-beta" [] emptyWorld
               eq_refl).
    vm_compute. reflexivity.
  - exact (Hsame "beta" beta_no_triplet).
Defined.

Lemma parseLabels_fooKey :
  parseLabels fooKey = {["bar" := quoted "baz"; "qux" := quoted "quux"]}.
Proof. vm_compute. reflexivity. Qed.

(** C2, as the code has it: a line whose key is
    [foo{bar="baz",qux="quux"}] and whose value is [5] pushes one sample.
    Its name is the whole key, braces and labels included (the key has
    no [-] and no [.] to replace); its value is the text [5]; and its
    own tags map [bar] and [qux] to the label values with their double
    quotes kept. *)
Theorem mntrLine_labelled_key (pf : string -> bool) (tags : gmap string string)
    (l : string) (rest : list string) (w : World) :
  Fields l = fooKey :: "5" :: rest ->
  mntrLine pf tags l w =
    (mkWorld (NewSample fooKey (StringValue "5")
                [tags; {["bar" := quoted "baz"; "qux" := quoted "quux"]}] :: slist w)
             (logged w) (wire w) (wg w),
     Some tt).
Proof.
  intros E. unfold mntrLine.
  rewrite (Fields_nonempty_line _ _ _ E), E.
  rewrite <- parseLabels_fooKey. reflexivity.
Qed.

Lemma mntrLine_labelled_key_witness :
  Fields (fooKey ++ " 5") = [fooKey; "5"]
  /\ snd (mntrLine shortDecimal tags1 (fooKey ++ " 5") emptyWorld) = Some tt.
Proof.
  split; [reflexivity|].
  rewrite (mntrLine_labelled_key shortDecimal tags1 (fooKey ++ " 5") [] emptyWorld eq_refl).
  reflexivity.
Defined.

(** C2, the claim as stated fails: the sample of that line is not
    named [foo]; its name is the key with its braces. *)
Lemma mntrLine_labelled_key_name :
  map Metric (slist (fst (mntrLine shortDecimal tags1 (fooKey ++ " 5") emptyWorld)))
  = [fooKey]
  /\ map Metric (slist (fst (mntrLine shortDecimal tags1 (fooKey ++ " 5") emptyWorld)))
     <> ["foo"].
Proof.
  assert (E : map Metric (slist (fst (mntrLine shortDecimal tags1 (fooKey ++ " 5")
                                        emptyWorld))) = [fooKey])
    by (vm_compute; reflexivity).
  split; [exact E|]. rewrite E. vm_compute. discriminate.
Qed.

(** ** The loop over the lines *)

Lemma extends_refl (w : World) : extends w w.
Proof. exists []. reflexivity. Qed.

Lemma extends_trans (w1 w2 w3 : World) :
  extends w1 w2 -> extends w2 w3 -> extends w1 w3.
Proof.
  intros [n1 E1] [n2 E2]. exists (n2 ++ n1)%list.
  rewrite E2, E1, app_assoc. reflexivity.
Qed.

Lemma extends_In (s : Sample) (w w' : World) :
  extends w w' -> In s (slist w) -> In s (slist w').
Proof.
  intros [new E] H. rewrite E. apply in_or_app. right. exact H.
Qed.

Section Lines.

Variable pf : string -> bool.
Variable tags : gmap string string.

(** A line with a key and a value pushes one sample or logs the
    value that is no number; either way the loop goes on. *)
Lemma mntrLine_fields (l key value : string) (rest : list string) (w : World) :
  Fields l = key :: value :: rest ->
  (exists s, mntrLine pf tags l w = PushFront s w)
  \/ mntrLine pf tags l w = Log (LogNotDigit key value) w.
Proof.
  intros E. unfold mntrLine.
  rewrite (Fields_nonempty_line _ _ _ E), E.
  change (index (key :: value :: rest) 0) with (ret (A := string) key).
  change (index (key :: value :: rest) 1) with (ret (A := string) value).
  unfold bind, ret.
  repeat match goal with
         | |- context [if ?b then _ else _] => destruct b
         end; eauto.
Qed.

Lemma mntrLine_keyValue (l : string) (w : World) :
  keyValueLine l ->
  exists w', mntrLine pf tags l w = (w', Some tt) /\ extends w w'.
Proof.
  intros [->|H].
  - exists w. split; [reflexivity|apply extends_refl].
  - destruct (Fields l) as [|key [|value rest]] eqn:E; simpl in H; try lia.
    destruct (mntrLine_fields l key value rest w E) as [[s ->]| ->].
    + eexists. split; [reflexivity|]. exists [s]. reflexivity.
    + eexists. split; [reflexivity|]. exists []. reflexivity.
Qed.

(** No line removes a sample, a line that panics included. *)
Lemma mntrLine_extends (l : string) (w : World) :
  extends w (fst (mntrLine pf tags l w)).
Proof.
  unfold mntrLine.
  destruct (String.eqb l EmptyString); [apply extends_refl|].
  destruct (Fields l) as [|key [|value rest]] eqn:E;
    [apply extends_refl|apply extends_refl|].
  pose proof (mntrLine_fields l key value rest w E) as H.
  unfold mntrLine in H.
  rewrite (Fields_nonempty_line _ _ _ E), E in H.
  destruct H as [[s ->]| ->].
  - exists [s]. reflexivity.
  - exists []. reflexivity.
Qed.

Lemma forRange_extends (ls : list string) :
  forall w, extends w (fst (forRange ls (mntrLine pf tags) w)).
Proof.
  induction ls as [|l ls IH]; intros w; simpl.
  - apply extends_refl.
  - unfold bind. pose proof (mntrLine_extends l w) as H.
    destruct (mntrLine pf tags l w) as [w' [[]|]]; simpl in *.
    + eapply extends_trans; [exact H|apply IH].
    + exact H.
Qed.

(** The loop gets through a run of key-value lines and goes on with
    the lines after them. *)
Lemma forRange_keyValue_prefix (pre : list string) :
  Forall keyValueLine pre ->
  forall (ls : list string) (w : World),
  exists w', extends w w'
             /\ forRange (pre ++ ls) (mntrLine pf tags) w
                = forRange ls (mntrLine pf tags) w'.
Proof.
  induction 1 as [|l pre Hl _ IH]; intros ls w; simpl.
  - exists w. split; [apply extends_refl|reflexivity].
  - destruct (mntrLine_keyValue l w Hl) as (w1 & E1 & X1).
    destruct (IH ls w1) as (w2 & X2 & E2).
    exists w2. split; [eapply extends_trans; eauto|].
    unfold bind at 1. rewrite E1. exact E2.
Qed.

End Lines.

Lemma mntrLine_server_state (pf : string -> bool) (tags : gmap string string)
    (l v : string) (rest : list string) (w : World) :
  Fields l = "zk_server_state" :: v :: rest ->
  mntrLine pf tags l w =
    PushFront (NewSample "zk_server_leader"
                 (IntValue (if String.eqb v "leader" then 1 else 0)) [tags]) w.
Proof.
  intros E. unfold mntrLine.
  rewrite (Fields_nonempty_line _ _ _ E), E.
  destruct (String.eqb v "leader") eqn:Ev.
  - apply String.eqb_eq in Ev. subst v. reflexivity.
  - change (index ("zk_server_state" :: v :: rest) 0)
      with (ret (A := string) "zk_server_state").
    change (index ("zk_server_state" :: v :: rest) 1) with (ret (A := string) v).
    unfold bind, ret. rewrite Ev. reflexivity.
Qed.

(** C8, as the code has it: the key is [zk_server_state]. In a reply
    whose first line is neither banner, a line with that key pushes
    [zk_server_leader], valued 1 when its value is [leader] and 0 for
    any other value, provided every line before it is empty or has a
    key and a value; what the lines after it hold does not matter. *)
Theorem gatherMntrResult_server_state (pf : string -> bool) (conn : Conn)
    (ins : Instance) (tags : gmap string string) (w : World)
    (pre post : list string) (l v : string) (rest : list string) :
  Split (ReadData conn) newline = (pre ++ l :: post)%list ->
  Contains (firstLine (ReadData conn)) cmdNotExecutedSffx = false ->
  firstLine (ReadData conn) <> instanceNotServingMessage ->
  Forall keyValueLine pre ->
  Fields l = "zk_server_state" :: v :: rest ->
  In (NewSample "zk_server_leader"
        (IntValue (if String.eqb v "leader" then 1 else 0)) [tags])
     (slist (fst (gatherMntrResult pf conn ins tags w))).
Proof.
  intros Es Hc Hn Hpre El.
  destruct (Split_firstLine (ReadData conn)) as [rest0 E0].
  rewrite (gatherMntrResult_lines pf conn ins tags w rest0 E0), Hc.
  apply String.eqb_neq in Hn. rewrite Hn.
  rewrite <- E0, Es.
  unfold bind at 1.
  change (PushFront (NewSample "zk_up" (IntValue 1) [tags]) (afterCmd conn "mntr" w))
    with (mkWorld (NewSample "zk_up" (IntValue 1) [tags] :: slist w)
                  (logged (afterCmd conn "mntr" w))
                  (wire (afterCmd conn "mntr" w)) (wg w), Some tt).
  cbv iota beta.
  destruct (forRange_keyValue_prefix pf tags pre Hpre (l :: post)
              (mkWorld (NewSample "zk_up" (IntValue 1) [tags] :: slist w)
                       (logged (afterCmd conn "mntr" w))
                       (wire (afterCmd conn "mntr" w)) (wg w)))
    as (w1 & _ & ->).
  simpl forRange. unfold bind at 1.
  rewrite (mntrLine_server_state pf tags l v rest w1 El).
  unfold PushFront at 1.
  eapply extends_In; [apply forRange_extends|].
  simpl. left. reflexivity.
Qed.

Lemma gatherMntrResult_server_state_witness :
  Split (ReadData (replying followerReply)) newline
  = (["zk_version 3.5.2"] ++ "zk_server_state follower" :: ["zk_znode_count"])%list
  /\ In (NewSample "zk_server_leader" (IntValue 0) [tags1])
        (slist (fst (gatherMntrResult shortDecimal (replying followerReply)
                       ins1 tags1 emptyWorld))).
Proof.
  split; [reflexivity|].
  apply (gatherMntrResult_server_state shortDecimal (replying followerReply) ins1 tags1
           emptyWorld ["zk_version 3.5.2"] ["zk_znode_count"]
           "zk_server_state follower" "follower" []).
  - reflexivity.
  - reflexivity.
  - discriminate.
  - constructor; [|constructor]. right. vm_compute. lia.
  - reflexivity.
Defined.

(** C8, the claim as stated fails: a line whose key is [server_state]
    pushes no [zk_server_leader] sample; the key falls to the default
    case, where its value is no number and is logged. *)
Lemma gatherMntrResult_server_state_bare_key :
  Fields "server_state leader" = ["server_state"; "leader"]
  /\ slist (fst (gatherMntrResult shortDecimal (replying "server_state leader")
                   ins1 tags1 emptyWorld))
     = [NewSample "zk_up" (IntValue 1) [tags1]]
  /\ logged (fst (gatherMntrResult shortDecimal (replying "server_state leader")
                    ins1 tags1 emptyWorld))
     = [LogNotDigit "server_state" "leader"].
Proof. vm_compute. repeat split. Qed.

(** ** Lines without a value *)

(** A line that is not empty and has fewer than two fields panics:
    [kv[1]], or already [kv[0]], is out of range. *)
Lemma mntrLine_short_line_panics (pf : string -> bool) (tags : gmap string string)
    (l : string) (w : World) :
  l <> EmptyString -> (length (Fields l) < 2)%nat ->
  mntrLine pf tags l w = (w, None).
Proof.
  intros Hl Hf. unfold mntrLine.
  apply String.eqb_neq in Hl. rewrite Hl.
  destruct (Fields l) as [|key [|value rest]]; simpl in Hf; try lia; reflexivity.
Qed.

(** C1, the code at a failing input: on a reply whose first line is a
    key without a value the parser panics after [zk_up]; the line is not
    skipped and [zk_server_state leader] after it is never parsed. *)
Theorem gatherMntrResult_key_without_value :
  gatherMntrResult shortDecimal
    (replying (unlines ["zk_version"; "zk_server_state leader"])) ins1 tags1 emptyWorld
  = (mkWorld [NewSample "zk_up" (IntValue 1) [tags1]] []
             [ReadAll zk1; Wrote zk1 "mntr"] 1,
     None).
Proof. vm_compute. reflexivity. Qed.

(** ** Fields, lines and metric names *)

Lemma all_in_app (cls : ascii -> bool) (a b : string) :
  all_in cls (a ++ b) = all_in cls a && all_in cls b.
Proof.
  induction a as [|c a IH]; simpl; [reflexivity|].
  rewrite IH, andb_assoc. reflexivity.
Qed.

Lemma spaceWidth_asciiSpace (c : ascii) (s : string) :
  spaceWidth (String c s) = 0%nat -> asciiSpace c = false.
Proof.
  unfold spaceWidth, asciiSpace.
  destruct ((9 <=? nat_of_ascii c) && (nat_of_ascii c <=? 13)
            || (nat_of_ascii c =? 32))%nat; [discriminate|reflexivity].
Qed.

Lemma fieldsFrom_cons (cur : string) (skip : nat) (c : ascii) (s : string) :
  fieldsFrom cur skip (String c s) =
    match skip with
    | S k => fieldsFrom cur k s
    | O =>
        match spaceWidth (String c s) with
        | O => fieldsFrom (cur ++ String c EmptyString) 0 s
        | S w => flush cur (fieldsFrom EmptyString w s)
        end
    end.
Proof. reflexivity. Qed.

Lemma fieldsFrom_fields (s : string) :
  forall (cur : string) (skip : nat),
    all_in notSpace cur = true ->
    Forall (fun f => f <> EmptyString /\ all_in notSpace f = true)
           (fieldsFrom cur skip s).
Proof.
  induction s as [|c s IH]; intros cur skip Hcur.
  - simpl. destruct cur; simpl; [constructor|].
    constructor; [split; [discriminate|exact Hcur]|constructor].
  - rewrite fieldsFrom_cons.
    destruct skip as [|k]; [|apply IH; exact Hcur].
    destruct (spaceWidth (String c s)) as [|w] eqn:Ew.
    + apply IH. rewrite all_in_app, Hcur. simpl.
      unfold notSpace. rewrite (spaceWidth_asciiSpace c s Ew). reflexivity.
    + destruct cur; simpl.
      * apply IH. reflexivity.
      * constructor; [split; [discriminate|exact Hcur]|].
        apply IH. reflexivity.
Qed.

(** X1: every field of [strings.Fields], so every host of an instance
    and the key and the value of every line, is a non-empty string
    without ASCII white space. *)
Theorem Fields_no_blank (s : string) (ins : Instance) :
  Forall (fun f => f <> EmptyString /\ all_in notSpace f = true) (Fields s)
  /\ Forall (fun h => h <> EmptyString /\ all_in notSpace h = true) (ZkHosts ins).
Proof.
  split; [|unfold ZkHosts]; apply fieldsFrom_fields; reflexivity.
Qed.

Lemma concat_cons (sep h : string) (t : list string) :
  t <> [] -> String.concat sep (h :: t) = h ++ sep ++ String.concat sep t.
Proof. destruct t; [congruence|reflexivity]. Qed.

(** X2: the lines [gatherMntrResult] reads hold no line feed, and
    joined by line feeds they are the reply again: the split loses and
    adds nothing. *)
Theorem Split_lines (res : string) :
  Forall (fun l => all_in not_newline l = true) (Split res newline)
  /\ unlines (Split res newline) = res.
Proof.
  unfold unlines. induction res as [|c res [IHa IHj]]; cbn [Split].
  - split; [repeat constructor|reflexivity].
  - destruct (Split_nonempty res newline) as (h & t & E).
    rewrite E in *.
    destruct (Ascii.eqb c newline) eqn:Ec.
    + apply Ascii.eqb_eq in Ec. subst c. split.
      * constructor; [reflexivity|exact IHa].
      * rewrite concat_cons by discriminate. rewrite IHj. reflexivity.
    + split.
      * inversion IHa as [|? ? Hh Ht]; subst.
        constructor; [|exact Ht]. cbn [all_in].
        unfold not_newline at 1. rewrite Ec. exact Hh.
      * destruct t as [|h2 t].
        -- change (String c h = String c res). f_equal. exact IHj.
        -- rewrite <- IHj. rewrite !concat_cons by discriminate. reflexivity.
Qed.

(** ** Metric names *)

Lemma Contains_cons_byte (c b : ascii) (s : string) :
  Contains (String c s) (String b EmptyString)
  = Ascii.eqb b c || Contains s (String b EmptyString).
Proof.
  simpl. destruct (ascii_dec b c) as [->|N].
  - rewrite Ascii.eqb_refl. destruct s; reflexivity.
  - apply Ascii.eqb_neq in N. rewrite N. reflexivity.
Qed.

Lemma metricNameReplacer_cons (c : ascii) (s : string) :
  metricNameReplacer_Replace (String c s)
  = String (if Ascii.eqb "-" c then "_"%char
            else if Ascii.eqb "." c then "_"%char else c)
           (metricNameReplacer_Replace s).
Proof.
  unfold metricNameReplacer_Replace. cbn [ReplaceBytes find fst snd].
  destruct (Ascii.eqb "-" c); [reflexivity|].
  destruct (Ascii.eqb "." c); reflexivity.
Qed.

(** X3: a metric name out of [metricNameReplacer] holds no [-] and no
    [.], has the length of the key it comes from, and is left as it is
    by a second replacement. *)
Theorem metricNameReplacer_normal (key : string) :
  Contains (metricNameReplacer_Replace key) "-" = false
  /\ Contains (metricNameReplacer_Replace key) "." = false
  /\ String.length (metricNameReplacer_Replace key) = String.length key
  /\ metricNameReplacer_Replace (metricNameReplacer_Replace key)
     = metricNameReplacer_Replace key.
Proof.
  induction key as [|c key (IH1 & IH2 & IH3 & IH4)].
  - repeat split.
  - rewrite !metricNameReplacer_cons, !Contains_cons_byte, IH1, IH2, IH4.
    cbn [String.length]. rewrite IH3.
    destruct (Ascii.eqb "-" c) eqn:E1; [repeat split|].
    destruct (Ascii.eqb "." c) eqn:E2; [repeat split|].
    rewrite E1, E2. repeat split.
Qed.

(** ** Numeric values *)

Lemma is_digit_range (c : ascii) :
  is_digit c = true -> (48 <= nat_of_ascii c <= 57)%nat.
Proof.
  unfold is_digit. intros H. apply andb_prop in H. destruct H as [H1 H2].
  apply Nat.leb_le in H1. apply Nat.leb_le in H2. lia.
Qed.

Lemma digitsValue_bound (ds : string) :
  forall acc : Z,
    (0 <= acc)%Z -> all_in is_digit ds = true ->
    exists v : Z,
      digitsValue acc ds = Some v
      /\ (acc * 10 ^ Z.of_nat (String.length ds) <= v
          < (acc + 1) * 10 ^ Z.of_nat (String.length ds))%Z.
Proof.
  induction ds as [|c ds IH]; intros acc Hacc Hd.
  - exists acc. simpl. split; [reflexivity|lia].
  - cbn [all_in] in Hd. apply andb_prop in Hd. destruct Hd as [Hc Hd].
    cbn [digitsValue]. rewrite Hc.
    pose proof (is_digit_range c Hc) as Hr.
    destruct (IH (10 * acc + Z.of_nat (nat_of_ascii c - 48))%Z ltac:(lia) Hd)
      as (v & Ev & Hv).
    exists v. split; [exact Ev|].
    cbn [String.length]. rewrite Nat2Z.inj_succ, Z.pow_succ_r by lia.
    assert (0 < 10 ^ Z.of_nat (String.length ds))%Z by (apply Z.pow_pos_nonneg; lia).
    nia.
Qed.

Lemma Atoi_integer (sign ds : string) :
  isSign sign -> ds <> EmptyString -> all_in is_digit ds = true ->
  (String.length ds <= 18)%nat ->
  exists n : Z, Atoi (sign ++ ds) = Some n.
Proof.
  intros Hs Hne Hd Hlen.
  destruct (digitsValue_bound ds 0%Z ltac:(lia) Hd) as (v & Ev & Hv).
  assert (Hp : (10 ^ Z.of_nat (String.length ds) <= 10 ^ 18)%Z)
    by (apply Z.pow_le_mono_r; lia).
  assert (Hr : ((- 2 ^ 63 <=? v) && (v <=? 2 ^ 63 - 1) = true
                /\ (- 2 ^ 63 <=? - v) && (- v <=? 2 ^ 63 - 1) = true)%Z).
  { split; apply andb_true_intro; split; apply Z.leb_le; lia. }
  destruct Hr as [Hpos Hneg].
  destruct ds as [|c ds]; [congruence|].
  destruct Hs as [->|[->| ->]]; unfold Atoi.
  - change (EmptyString ++ String c ds) with (String c ds). cbv iota.
    assert (Hc : is_digit c = true)
      by (cbn [all_in] in Hd; apply andb_prop in Hd; tauto).
    assert (E1 : Ascii.eqb c "+" = false).
    { destruct (Ascii.eqb c "+") eqn:E; [|reflexivity].
      apply Ascii.eqb_eq in E. subst c. discriminate Hc. }
    assert (E2 : Ascii.eqb c "-" = false).
    { destruct (Ascii.eqb c "-") eqn:E; [|reflexivity].
      apply Ascii.eqb_eq in E. subst c. discriminate Hc. }
    rewrite E1, E2, Ev, Hpos. eauto.
  - change ("+" ++ String c ds) with (String "+" (String c ds)). cbv iota.
    rewrite Ascii.eqb_refl, Ev, Hpos. eauto.
  - change ("-" ++ String c ds) with (String "-" (String c ds)). cbv iota.
    change (Ascii.eqb "-" "+") with false. rewrite Ascii.eqb_refl, Ev, Hneg. eauto.
Qed.

(** X4: whatever the float parser accepts, [isDigit] accepts every
    decimal integer of one to eighteen digits, with or without a sign:
    [strconv.Atoi] takes it and the float parser is not asked. *)
Theorem isDigit_integer (pf : string -> bool) (sign ds : string) :
  isSign sign -> ds <> EmptyString -> all_in is_digit ds = true ->
  (String.length ds <= 18)%nat ->
  isDigit pf (sign ++ ds) = true.
Proof.
  intros Hs Hne Hd Hlen. unfold isDigit.
  destruct (Atoi_integer sign ds Hs Hne Hd Hlen) as [n ->]. reflexivity.
Qed.

Lemma isDigit_integer_witness :
  isSign "-" /\ all_in is_digit "123456789012345678" = true
  /\ isDigit (fun _ => false) "-123456789012345678" = true.
Proof.
  split; [right; right; reflexivity|]. split; [reflexivity|].
  apply (isDigit_integer (fun _ => false) "-" "123456789012345678").
  - right; right; reflexivity.
  - discriminate.
  - reflexivity.
  - vm_compute. lia.
Defined.

(** ** What the stats-summary parser does to the world *)

Lemma pushesAndLogs_refl (w : World) : pushesAndLogs w w.
Proof.
  split; [apply extends_refl|]. split; [exists []; reflexivity|]. split; reflexivity.
Qed.

Lemma pushesAndLogs_trans (w1 w2 w3 : World) :
  pushesAndLogs w1 w2 -> pushesAndLogs w2 w3 -> pushesAndLogs w1 w3.
Proof.
  intros (X1 & [n1 L1] & W1 & G1) (X2 & [n2 L2] & W2 & G2).
  split; [eapply extends_trans; eauto|].
  split; [exists (n2 ++ n1)%list; rewrite L2, L1, app_assoc; reflexivity|].
  split; congruence.
Qed.

Lemma PushFront_pushesAndLogs (s : Sample) (w : World) :
  pushesAndLogs w (fst (PushFront s w)).
Proof.
  split; [exists [s]; reflexivity|]. split; [exists []; reflexivity|].
  split; reflexivity.
Qed.

Lemma Log_pushesAndLogs (l : LogLine) (w : World) :
  pushesAndLogs w (fst (Log l w)).
Proof.
  split; [exists []; reflexivity|]. split; [exists [l]; reflexivity|].
  split; reflexivity.
Qed.

Lemma keyValueLine_dec (l : string) :
  keyValueLine l \/ (l <> EmptyString /\ (length (Fields l) < 2)%nat).
Proof.
  unfold keyValueLine. destruct l as [|c l]; [left; left; reflexivity|].
  destruct (le_lt_dec 2 (length (Fields (String c l)))) as [H|H].
  - left. right. exact H.
  - right. split; [discriminate|exact H].
Qed.

Section WorldFrame.

Variable pf : string -> bool.
Variable tags : gmap string string.

Lemma mntrLine_pushesAndLogs (l : string) (w : World) :
  pushesAndLogs w (fst (mntrLine pf tags l w)).
Proof.
  destruct (keyValueLine_dec l) as [[->|H]|[Hl Hf]].
  - apply pushesAndLogs_refl.
  - destruct (Fields l) as [|key [|value rest]] eqn:E; simpl in H; try lia.
    destruct (mntrLine_fields pf tags l key value rest w E) as [[s ->]| ->].
    + apply PushFront_pushesAndLogs.
    + apply Log_pushesAndLogs.
  - rewrite (mntrLine_short_line_panics pf tags l w Hl Hf).
    apply pushesAndLogs_refl.
Qed.

Lemma forRange_pushesAndLogs (ls : list string) :
  forall w, pushesAndLogs w (fst (forRange ls (mntrLine pf tags) w)).
Proof.
  induction ls as [|l ls IH]; intros w; cbn [forRange].
  - apply pushesAndLogs_refl.
  - unfold bind. pose proof (mntrLine_pushesAndLogs l w) as H.
    destruct (mntrLine pf tags l w) as [w' [[]|]]; cbn [fst] in *.
    + eapply pushesAndLogs_trans; [exact H|apply IH].
    + exact H.
Qed.

Lemma mntrLine_returns (l : string) (w : World) :
  snd (mntrLine pf tags l w) = Some tt <-> keyValueLine l.
Proof.
  split.
  - intros H. destruct (keyValueLine_dec l) as [K|[Hl Hf]]; [exact K|].
    rewrite (mntrLine_short_line_panics pf tags l w Hl Hf) in H. discriminate.
  - intros K. destruct (mntrLine_keyValue pf tags l w K) as (w' & -> & _).
    reflexivity.
Qed.

Lemma forRange_returns (ls : list string) :
  forall w, snd (forRange ls (mntrLine pf tags) w) = Some tt <-> Forall keyValueLine ls.
Proof.
  induction ls as [|l ls IH]; intros w; cbn [forRange].
  - split; [constructor|reflexivity].
  - unfold bind. pose proof (mntrLine_returns l w) as H.
    destruct (mntrLine pf tags l w) as [w' [[]|]]; cbn [snd] in *.
    + rewrite IH. split.
      * intros F. constructor; [apply H; reflexivity|exact F].
      * intros F. inversion F; assumption.
    + split; [discriminate|].
      intros F. inversion F as [|? ? K _]; subst.
      apply H in K. discriminate.
Qed.

End WorldFrame.

(** X5: [gatherMntrResult] returns without a panic exactly when the
    first line of the reply carries the not-in-whitelist banner, or is
    the not-serving message, or every line of the reply is empty or has
    a key and a value. *)
Theorem gatherMntrResult_returns (pf : string -> bool) (conn : Conn) (ins : Instance)
    (tags : gmap string string) (w : World) :
  snd (gatherMntrResult pf conn ins tags w) = Some tt
  <-> (Contains (firstLine (ReadData conn)) cmdNotExecutedSffx = true
       \/ firstLine (ReadData conn) = instanceNotServingMessage
       \/ Forall keyValueLine (Split (ReadData conn) newline)).
Proof.
  destruct (Split_firstLine (ReadData conn)) as [rest E].
  rewrite (gatherMntrResult_lines pf conn ins tags w rest E), E.
  destruct (Contains (firstLine (ReadData conn)) cmdNotExecutedSffx).
  - split; [intros _; left; reflexivity|intros _; reflexivity].
  - destruct (String.eqb (firstLine (ReadData conn)) instanceNotServingMessage) eqn:En.
    + apply String.eqb_eq in En.
      split; [intros _; right; left; exact En|intros _; reflexivity].
    + apply String.eqb_neq in En. unfold bind at 1.
      change (PushFront (NewSample "zk_up" (IntValue 1) [tags]) (afterCmd conn "mntr" w))
        with (mkWorld (NewSample "zk_up" (IntValue 1) [tags] :: slist w)
                      (logged (afterCmd conn "mntr" w))
                      (wire (afterCmd conn "mntr" w)) (wg w), Some tt).
      cbv iota beta. rewrite forRange_returns.
      split; [intros F; right; right; exact F|].
      intros [H|[H|H]]; [discriminate|contradiction|exact H].
Qed.

Lemma gatherMntrResult_world (pf : string -> bool) (conn : Conn) (ins : Instance)
    (tags : gmap string string) (w : World) :
  wire (fst (gatherMntrResult pf conn ins tags w))
  = ReadAll (RemoteAddr conn) :: Wrote (RemoteAddr conn) "mntr" :: wire w
  /\ wg (fst (gatherMntrResult pf conn ins tags w)) = wg w
  /\ exists newer : list Sample,
       slist (fst (gatherMntrResult pf conn ins tags w))
       = (newer ++ NewSample "zk_up"
                     (IntValue (if Contains (firstLine (ReadData conn)) cmdNotExecutedSffx
                                then 0 else 1)) [tags] :: slist w)%list.
Proof.
  destruct (Split_firstLine (ReadData conn)) as [rest E].
  rewrite (gatherMntrResult_lines pf conn ins tags w rest E).
  destruct (Contains (firstLine (ReadData conn)) cmdNotExecutedSffx).
  - split; [reflexivity|]. split; [reflexivity|]. exists []. reflexivity.
  - destruct (String.eqb (firstLine (ReadData conn)) instanceNotServingMessage).
    + split; [reflexivity|]. split; [reflexivity|].
      exists [NewSample "zk_server_leader" (IntValue 1) [tags]]. reflexivity.
    + unfold bind at 1.
      change (PushFront (NewSample "zk_up" (IntValue 1) [tags]) (afterCmd conn "mntr" w))
        with (mkWorld (NewSample "zk_up" (IntValue 1) [tags] :: slist w)
                      (logged (afterCmd conn "mntr" w))
                      (wire (afterCmd conn "mntr" w)) (wg w), Some tt).
      cbv iota beta.
      destruct (forRange_pushesAndLogs pf tags (firstLine (ReadData conn) :: rest)
                  (mkWorld (NewSample "zk_up" (IntValue 1) [tags] :: slist w)
                           (logged (afterCmd conn "mntr" w))
                           (wire (afterCmd conn "mntr" w)) (wg w)))
        as ([newer X] & _ & W & G).
      split; [exact W|]. split; [exact G|].
      exists newer. exact X.
Qed.

(** X6: on every reply, a panic included, [gatherMntrResult] writes
    one command, [mntr], reads the connection once and neither closes
    it nor touches the wait group; and the first sample it pushes is
    [zk_up], valued 0 when the first line carries the not-in-whitelist
    banner and 1 otherwise. *)
Theorem gatherMntrResult_frame (pf : string -> bool) (conn : Conn) (ins : Instance)
    (tags : gmap string string) (w : World) :
  wire (fst (gatherMntrResult pf conn ins tags w))
  = ReadAll (RemoteAddr conn) :: Wrote (RemoteAddr conn) "mntr" :: wire w
  /\ wg (fst (gatherMntrResult pf conn ins tags w)) = wg w
  /\ exists newer : list Sample,
       slist (fst (gatherMntrResult pf conn ins tags w))
       = (newer ++ NewSample "zk_up"
                     (IntValue (if Contains (firstLine (ReadData conn)) cmdNotExecutedSffx
                                then 0 else 1)) [tags] :: slist w)%list.
Proof. apply gatherMntrResult_world. Qed.

(** ** The paths of one host's task *)

Lemma gatherRuokResult_run (conn : Conn) (ins : Instance) (tags : gmap string string)
    (w : World) :
  gatherRuokResult conn ins tags w = (afterRuok conn tags w, Some tt).
Proof.
  unfold gatherRuokResult, bind at 1. rewrite sendZookeeperCmd_run.
  destruct (String.eqb (ReadData conn) "imok") eqn:E.
  - apply String.eqb_eq in E. unfold afterRuok. rewrite E, imok_no_banner. reflexivity.
  - unfold afterRuok. rewrite E.
    destruct (Contains (ReadData conn) cmdNotExecutedSffx); reflexivity.
Qed.

(** [gatherOnce] once its first connection is open, by what the
    stats-summary parser returns and what the second connection does. *)
Lemma gatherOnce_connected (pf : string -> bool) (net : Network) (use : Z)
    (ins : Instance) (zkHost : string) (w : World) (conn : Conn) :
  ZkConnect net 0 zkHost = inl conn ->
  gatherOnce pf net use ins zkHost w =
    match gatherMntrResult pf conn ins (hostTags ins zkHost) w with
    | (w1, None) =>
        (mkWorld (scrapeSample use ins zkHost :: slist w1) (logged w1)
                 (Closed (RemoteAddr conn) :: wire w1) (wg w1 - 1),
         None)
    | (w1, Some _) =>
        match ZkConnect net 1 zkHost with
        | inr err =>
            (mkWorld (scrapeSample use ins zkHost
                        :: NewSample "zk_ruok" (IntValue 0) [hostTags ins zkHost]
                        :: slist w1)
                     (LogConnectErr zkHost err :: logged w1)
                     (Closed (RemoteAddr conn) :: wire w1) (wg w1 - 1),
             Some tt)
        | inl ruokConn =>
            (mkWorld (scrapeSample use ins zkHost
                        :: slist (afterRuok ruokConn (hostTags ins zkHost) w1))
                     (logged (afterRuok ruokConn (hostTags ins zkHost) w1))
                     (Closed (RemoteAddr conn) :: Closed (RemoteAddr ruokConn)
                        :: wire (afterRuok ruokConn (hostTags ins zkHost) w1))
                     (wg w1 - 1),
             Some tt)
        end
    end.
Proof.
  intros E0. unfold gatherOnce. rewrite E0.
  change (Labels ins ∪ <["zk_host" := zkHost]> {["zk_cluster" := ClusterName ins]})
    with (hostTags ins zkHost).
  unfold defer, bind at 1.
  destruct (gatherMntrResult pf conn ins (hostTags ins zkHost) w) as [w1 [[]|]].
  - destruct (ZkConnect net 1 zkHost) as [ruokConn|err].
    + rewrite gatherRuokResult_run. reflexivity.
    + reflexivity.
  - reflexivity.
Qed.

(** X7: on every path of [gatherOnce], a refused connection and a
    panic of the parser included, the wait group is decremented exactly
    once. *)
Theorem gatherOnce_wait_group (pf : string -> bool) (net : Network) (use : Z)
    (ins : Instance) (zkHost : string) (w : World) :
  wg (fst (gatherOnce pf net use ins zkHost w)) = (wg w - 1)%Z.
Proof.
  destruct (ZkConnect net 0 zkHost) as [conn|err] eqn:E0.
  - rewrite (gatherOnce_connected pf net use ins zkHost w conn E0).
    destruct (gatherMntrResult_world pf conn ins (hostTags ins zkHost) w) as (_ & G & _).
    destruct (gatherMntrResult pf conn ins (hostTags ins zkHost) w) as [w1 [[]|]];
      cbn [fst] in G.
    + destruct (ZkConnect net 1 zkHost); cbn [fst wg]; rewrite G; reflexivity.
    + cbn [fst wg]. rewrite G. reflexivity.
  - unfold gatherOnce. rewrite E0. reflexivity.
Qed.

(** X8: a task closes every connection it opened, the parser's panic
    included. With the first connection open, the traffic of the task
    is the [mntr] exchange and the close of that connection; when the
    parser returned and the second connection opened, the [ruok]
    exchange and the close of the second connection come in between. *)
Theorem gatherOnce_traffic (pf : string -> bool) (net : Network) (use : Z)
    (ins : Instance) (zkHost : string) (w : World) (conn : Conn) :
  ZkConnect net 0 zkHost = inl conn ->
  wire (fst (gatherOnce pf net use ins zkHost w)) =
    match snd (gatherMntrResult pf conn ins (hostTags ins zkHost) w),
          ZkConnect net 1 zkHost with
    | Some _, inl ruokConn =>
        Closed (RemoteAddr conn) :: Closed (RemoteAddr ruokConn)
          :: ReadAll (RemoteAddr ruokConn) :: Wrote (RemoteAddr ruokConn) "ruok"
          :: ReadAll (RemoteAddr conn) :: Wrote (RemoteAddr conn) "mntr" :: wire w
    | _, _ =>
        Closed (RemoteAddr conn)
          :: ReadAll (RemoteAddr conn) :: Wrote (RemoteAddr conn) "mntr" :: wire w
    end.
Proof.
  intros E0. rewrite (gatherOnce_connected pf net use ins zkHost w conn E0).
  destruct (gatherMntrResult_world pf conn ins (hostTags ins zkHost) w) as (W & _ & _).
  destruct (gatherMntrResult pf conn ins (hostTags ins zkHost) w) as [w1 [[]|]];
    cbn [fst snd] in *.
  - destruct (ZkConnect net 1 zkHost) as [ruokConn|err];
      cbn [fst wire afterRuok]; rewrite W; reflexivity.
  - cbn [wire]. rewrite W. reflexivity.
Qed.

Lemma gatherOnce_traffic_witness :
  ZkConnect (twice (replying followerReply) (replying "imok")) 0 zk1
  = inl (replying followerReply)
  /\ wire (fst (gatherOnce shortDecimal (twice (replying followerReply) (replying "imok"))
                  1500 ins1 zk1 emptyWorld))
     = [Closed zk1; ReadAll zk1; Wrote zk1 "mntr"].
Proof.
  split; [reflexivity|].
  rewrite (gatherOnce_traffic shortDecimal (twice (replying followerReply) (replying "imok"))
             1500 ins1 zk1 emptyWorld (replying followerReply) eq_refl).
  vm_compute. reflexivity.
Defined.

(** X9: when the stats-summary parser panics, the task panics with it
    and the liveness probe is not run: no [zk_ruok] sample and no log
    line are added to what the parser left, and the scrape time is still
    pushed. *)
Theorem gatherOnce_parser_panic (pf : string -> bool) (net : Network) (use : Z)
    (ins : Instance) (zkHost : string) (w : World) (conn : Conn) :
  ZkConnect net 0 zkHost = inl conn ->
  snd (gatherMntrResult pf conn ins (hostTags ins zkHost) w) = None ->
  snd (gatherOnce pf net use ins zkHost w) = None
  /\ slist (fst (gatherOnce pf net use ins zkHost w))
     = scrapeSample use ins zkHost
         :: slist (fst (gatherMntrResult pf conn ins (hostTags ins zkHost) w))
  /\ logged (fst (gatherOnce pf net use ins zkHost w))
     = logged (fst (gatherMntrResult pf conn ins (hostTags ins zkHost) w)).
Proof.
  intros E0 Hp. rewrite (gatherOnce_connected pf net use ins zkHost w conn E0).
  destruct (gatherMntrResult pf conn ins (hostTags ins zkHost) w) as [w1 [[]|]];
    cbn [fst snd] in *; [discriminate|].
  repeat split.
Qed.

Lemma gatherOnce_parser_panic_witness :
  snd (gatherMntrResult shortDecimal (replying followerReply) ins1 (hostTags ins1 zk1)
         emptyWorld) = None
  /\ slist (fst (gatherOnce shortDecimal (twice (replying followerReply) (replying "imok"))
                   1500 ins1 zk1 emptyWorld))
     = [scrapeSample 1500 ins1 zk1;
        NewSample "zk_server_leader" (IntValue 0) [tags1];
        NewSample "zk_version" (IntValue 1) [tags1; {["version" := "3.5.2"]}];
        NewSample "zk_up" (IntValue 1) [tags1]].
Proof.
  split; [vm_compute; reflexivity|].
  destruct (gatherOnce_parser_panic shortDecimal
              (twice (replying followerReply) (replying "imok")) 1500 ins1 zk1 emptyWorld
              (replying followerReply) eq_refl) as (_ & -> & _).
  - vm_compute. reflexivity.
  - vm_compute. reflexivity.
Defined.

(** X10: when the parser returned and the second connection fails, the
    task pushes [zk_ruok] valued 0 and then the scrape time, logs the
    error of the connection, and returns without a panic. *)
Theorem gatherOnce_second_connect (pf : string -> bool) (net : Network) (use : Z)
    (ins : Instance) (zkHost : string) (w : World) (conn : Conn) (err : string) :
  ZkConnect net 0 zkHost = inl conn ->
  snd (gatherMntrResult pf conn ins (hostTags ins zkHost) w) = Some tt ->
  ZkConnect net 1 zkHost = inr err ->
  snd (gatherOnce pf net use ins zkHost w) = Some tt
  /\ slist (fst (gatherOnce pf net use ins zkHost w))
     = scrapeSample use ins zkHost
         :: NewSample "zk_ruok" (IntValue 0) [hostTags ins zkHost]
         :: slist (fst (gatherMntrResult pf conn ins (hostTags ins zkHost) w))
  /\ logged (fst (gatherOnce pf net use ins zkHost w))
     = LogConnectErr zkHost err
         :: logged (fst (gatherMntrResult pf conn ins (hostTags ins zkHost) w)).
Proof.
  intros E0 Hr E1. rewrite (gatherOnce_connected pf net use ins zkHost w conn E0), E1.
  destruct (gatherMntrResult pf conn ins (hostTags ins zkHost) w) as [w1 [[]|]];
    cbn [fst snd] in *; [|discriminate].
  repeat split.
Qed.

Lemma gatherOnce_second_connect_witness :
  ZkConnect (onceOnly (replying leaderReply)) 1 zk1 = inr "connection refused"
  /\ snd (gatherMntrResult shortDecimal (replying leaderReply) ins1 (hostTags ins1 zk1)
            emptyWorld) = Some tt
  /\ logged (fst (gatherOnce shortDecimal (onceOnly (replying leaderReply)) 1500 ins1 zk1
                    emptyWorld))
     = [LogConnectErr zk1 "connection refused"].
Proof.
  split; [reflexivity|]. split; [vm_compute; reflexivity|].
  destruct (gatherOnce_second_connect shortDecimal (onceOnly (replying leaderReply)) 1500
              ins1 zk1 emptyWorld (replying leaderReply) "connection refused" eq_refl)
    as (_ & _ & ->).
  - vm_compute. reflexivity.
  - reflexivity.
  - vm_compute. reflexivity.
Defined.

(** X11: when both connections open and the parser returned, the task
    leaves, most recent first, the scrape time, the [zk_ruok] sample of
    the liveness reply, and the samples of the stats summary; the log of
    the liveness probe comes after the log of the stats summary. *)
Theorem gatherOnce_both_probes (pf : string -> bool) (net : Network) (use : Z)
    (ins : Instance) (zkHost : string) (w : World) (conn ruokConn : Conn) :
  ZkConnect net 0 zkHost = inl conn ->
  snd (gatherMntrResult pf conn ins (hostTags ins zkHost) w) = Some tt ->
  ZkConnect net 1 zkHost = inl ruokConn ->
  snd (gatherOnce pf net use ins zkHost w) = Some tt
  /\ slist (fst (gatherOnce pf net use ins zkHost w))
     = scrapeSample use ins zkHost
         :: NewSample "zk_ruok"
              (IntValue (if String.eqb (ReadData ruokConn) "imok" then 1 else 0))
              [hostTags ins zkHost]
         :: slist (fst (gatherMntrResult pf conn ins (hostTags ins zkHost) w))
  /\ logged (fst (gatherOnce pf net use ins zkHost w))
     = ((if Contains (ReadData ruokConn) cmdNotExecutedSffx
         then [LogCommandNotAllowed "ruok" (RemoteAddr ruokConn)]
         else [])
          ++ transportLog ruokConn "ruok"
          ++ logged (fst (gatherMntrResult pf conn ins (hostTags ins zkHost) w)))%list.
Proof.
  intros E0 Hr E1. rewrite (gatherOnce_connected pf net use ins zkHost w conn E0), E1.
  destruct (gatherMntrResult pf conn ins (hostTags ins zkHost) w) as [w1 [[]|]];
    cbn [fst snd] in *; [|discriminate].
  repeat split.
Qed.

Lemma gatherOnce_both_probes_witness :
  snd (gatherMntrResult shortDecimal (replying leaderReply) ins1 (hostTags ins1 zk1)
         emptyWorld) = Some tt
  /\ map Metric
       (slist (fst (gatherOnce shortDecimal (twice (replying leaderReply) (replying "imok"))
                      1500 ins1 zk1 emptyWorld)))
     = ["zk_scrape_use_seconds"; "zk_ruok"; "zk_znode_count"; "zk_server_leader";
        "zk_version"; "zk_up"].
Proof.
  split; [vm_compute; reflexivity|].
  destruct (gatherOnce_both_probes shortDecimal
              (twice (replying leaderReply) (replying "imok")) 1500 ins1 zk1 emptyWorld
              (replying leaderReply) (replying "imok") eq_refl) as (_ & -> & _).
  - vm_compute. reflexivity.
  - reflexivity.
  - vm_compute. reflexivity.
Defined.

(** ** Runs of a greedy repetition *)

Lemma greedy_app (cls : ascii -> bool) (k : nat -> string -> option Caps)
    (t : string) (r : Caps) :
  forall (a : string) (pos : nat),
    all_in cls a = true ->
    greedy cls k (pos + String.length a) t = Some r ->
    greedy cls k pos (a ++ t) = Some r.
Proof.
  induction a as [|c a IH]; intros pos Ha H.
  - cbn [String.length] in H. rewrite Nat.add_0_r in H. exact H.
  - cbn [all_in] in Ha. apply andb_prop in Ha. destruct Ha as [Hc Ha].
    change (String c a ++ t) with (String c (a ++ t)).
    cbn [greedy]. rewrite Hc.
    rewrite (IH (S pos) Ha); [reflexivity|].
    cbn [String.length] in H. rewrite <- plus_n_Sm in H. exact H.
Qed.

Lemma greedy_stop (cls : ascii -> bool) (k : nat -> string -> option Caps)
    (pos : nat) (t : string) :
  startsIn cls t = false -> greedy cls k pos t = k pos t.
Proof.
  destruct t as [|c t]; [reflexivity|].
  cbn [startsIn greedy]. intros ->. reflexivity.
Qed.

Lemma greedy_none (cls : ascii -> bool) (k : nat -> string -> option Caps) :
  forall (t : string) (pos : nat),
    (forall b t', t = b ++ t' -> all_in cls b = true ->
                  k (pos + String.length b) t' = None) ->
    greedy cls k pos t = None.
Proof.
  induction t as [|c t IH]; intros pos H.
  - cbn [greedy]. specialize (H EmptyString EmptyString eq_refl eq_refl).
    cbn [String.length] in H. rewrite Nat.add_0_r in H. exact H.
  - assert (H0 : k pos (String c t) = None).
    { specialize (H EmptyString (String c t) eq_refl eq_refl).
      cbn [String.length] in H. rewrite Nat.add_0_r in H. exact H. }
    cbn [greedy]. destruct (cls c) eqn:Hc; [|exact H0].
    rewrite IH; [exact H0|].
    intros b t' -> Hb.
    specialize (H (String c b) t' eq_refl).
    cbn [all_in String.length] in H. rewrite Hc, Hb in H.
    rewrite <- plus_n_Sm in H. apply H. reflexivity.
Qed.

(** The run a greedy repetition takes is the longest after which the
    rest of the pattern matches. *)
Lemma greedy_last (cls : ascii -> bool) (k : nat -> string -> option Caps)
    (a t : string) (pos : nat) (r : Caps) :
  all_in cls a = true ->
  k (pos + String.length a) t = Some r ->
  (forall b t', t = b ++ t' -> b <> EmptyString -> all_in cls b = true ->
                k (pos + String.length a + String.length b) t' = None) ->
  greedy cls k pos (a ++ t) = Some r.
Proof.
  intros Ha Hk Hdeep. apply greedy_app; [exact Ha|].
  destruct t as [|c t]; [exact Hk|].
  cbn [greedy]. destruct (cls c) eqn:Hc; [|exact Hk].
  rewrite greedy_none; [exact Hk|].
  intros b t' -> Hb.
  specialize (Hdeep (String c b) t' eq_refl ltac:(discriminate)).
  cbn [all_in String.length] in Hdeep. rewrite Hc, Hb in Hdeep.
  rewrite <- plus_n_Sm in Hdeep. apply Hdeep. reflexivity.
Qed.

Lemma step_Lit_eq (c : ascii) (re : Regexp) (pos : nat) (s : string) (cap : Caps) :
  step (Lit c :: re) pos (String c s) cap = step re (S pos) s cap.
Proof. cbn [step]. rewrite Ascii.eqb_refl. reflexivity. Qed.

(** A [Plus] node in front of a run of its class that the next byte
    ends. *)
Lemma step_Plus_run (cls : ascii -> bool) (re : Regexp) (pos : nat) (a t : string)
    (cap r : Caps) :
  a <> EmptyString -> all_in cls a = true -> startsIn cls t = false ->
  step re (pos + String.length a) t cap = Some r ->
  step (Plus cls :: re) pos (a ++ t) cap = Some r.
Proof.
  intros Na Ha Ht H. destruct a as [|c a]; [congruence|].
  cbn [all_in] in Ha. apply andb_prop in Ha. destruct Ha as [Hc Ha].
  change (String c a ++ t) with (String c (a ++ t)).
  cbn [step]. rewrite Hc.
  apply greedy_app; [exact Ha|].
  rewrite greedy_stop by exact Ht.
  cbn [String.length] in H. rewrite <- plus_n_Sm in H. exact H.
Qed.

Lemma substring_prefix (a b : string) :
  String.substring 0 (String.length a) (a ++ b) = a.
Proof.
  induction a as [|c a IH]; cbn [String.length].
  - destruct b; reflexivity.
  - change (String c a ++ b) with (String c (a ++ b)).
    cbn [String.substring]. rewrite IH. reflexivity.
Qed.

Lemma substring_skip (a b : string) (n : nat) :
  String.substring (String.length a) n (a ++ b) = String.substring 0 n b.
Proof.
  induction a as [|c a IH]; [reflexivity|].
  change (String c a ++ b) with (String c (a ++ b)).
  cbn [String.length String.substring]. exact IH.
Qed.

Lemma length_append (a b : string) :
  String.length (a ++ b) = (String.length a + String.length b)%nat.
Proof.
  induction a as [|c a IH]; [reflexivity|].
  change (String c a ++ b) with (String c (a ++ b)).
  cbn [String.length]. rewrite IH. reflexivity.
Qed.

Lemma greedy_whole (cls : ascii -> bool) (k : nat -> string -> option Caps) (r : Caps) :
  forall (a : string) (pos : nat),
    all_in cls a = true ->
    k (pos + String.length a) EmptyString = Some r ->
    greedy cls k pos a = Some r.
Proof.
  induction a as [|c a IH]; intros pos Ha H.
  - cbn [String.length] in H. rewrite Nat.add_0_r in H. exact H.
  - cbn [all_in] in Ha. apply andb_prop in Ha. destruct Ha as [Hc Ha].
    cbn [greedy]. rewrite Hc. rewrite (IH (S pos) Ha); [reflexivity|].
    cbn [String.length] in H. rewrite <- plus_n_Sm in H. exact H.
Qed.

(** ** The version pattern on a dotted triplet *)

Lemma versionRE_step (a b c rest : string) :
  a <> EmptyString -> b <> EmptyString -> c <> EmptyString ->
  all_in is_digit a = true -> all_in is_digit b = true -> all_in is_digit c = true ->
  startsIn is_digit rest = false -> all_in not_newline rest = true ->
  exists e : nat,
    step versionRE 0 (a ++ "." ++ b ++ "." ++ c ++ rest) [Some 0; None; None; None]
    = Some [Some 0; Some e; Some 0;
            Some (String.length (a ++ "." ++ b ++ "." ++ c))].
Proof.
  intros Na Nb Nc Da Db Dc Hs Hr.
  eexists.
  change (step versionRE 0 (a ++ "." ++ b ++ "." ++ c ++ rest) [Some 0; None; None; None])
    with (step (Plus is_digit :: Lit "." :: Plus is_digit :: Lit "." :: Plus is_digit
                  :: Rparen 1 :: Star not_newline :: Eol :: nil) 0
               (a ++ String "." (b ++ String "." (c ++ rest)))
               [Some 0; None; Some 0; None]).
  apply step_Plus_run; [exact Na|exact Da|reflexivity|].
  rewrite step_Lit_eq.
  apply step_Plus_run; [exact Nb|exact Db|reflexivity|].
  rewrite step_Lit_eq.
  apply step_Plus_run; [exact Nc|exact Dc|exact Hs|].
  change (step (Rparen 1 :: Star not_newline :: Eol :: nil)
               (S (S (0 + String.length a) + String.length b) + String.length c) rest
               [Some 0; None; Some 0; None])
    with (greedy not_newline
            (fun p t => step [Eol] p t
                          [Some 0; None; Some 0;
                           Some (S (S (0 + String.length a) + String.length b)
                                 + String.length c)%nat])
            (S (S (0 + String.length a) + String.length b) + String.length c) rest).
  apply greedy_whole; [exact Hr|].
  cbn [step].
  replace (S (S (0 + String.length a) + String.length b) + String.length c)%nat
    with (String.length (a ++ "." ++ b ++ "." ++ c)).
  - reflexivity.
  - rewrite !length_append. cbn [String.length]. lia.
Qed.

Lemma append_assoc3 (a b c : string) : (a ++ b) ++ c = a ++ b ++ c.
Proof.
  induction a as [|x a IH]; [reflexivity|].
  change (String x ((a ++ b) ++ c) = String x (a ++ b ++ c)). rewrite IH. reflexivity.
Qed.

(** X12: a value that starts with a dotted triplet of decimal numbers
    is normalized to that triplet, the longest one, when what follows
    it holds no line feed: the pattern drops every suffix, not only the
    [-beta] of the example. *)
Theorem versionRE_triplet (a b c rest : string) :
  a <> EmptyString -> b <> EmptyString -> c <> EmptyString ->
  all_in is_digit a = true -> all_in is_digit b = true -> all_in is_digit c = true ->
  startsIn is_digit rest = false -> all_in not_newline rest = true ->
  versionRE_ReplaceAllString (a ++ "." ++ b ++ "." ++ c ++ rest)
  = a ++ "." ++ b ++ "." ++ c.
Proof.
  intros Na Nb Nc Da Db Dc Hs Hr.
  destruct (versionRE_step a b c rest Na Nb Nc Da Db Dc Hs Hr) as [e E].
  unfold versionRE_ReplaceAllString, FindStringSubmatch.
  rewrite search_unfold.
  change (<[0 := Some 0]> (replicate (2 * S (NumSubexp versionRE)) None))
    with [Some 0; @None nat; @None nat; @None nat].
  rewrite E.
  change (NumSubexp versionRE) with 1%nat.
  cbn [seq map]. unfold group.
  change ([Some 0; Some e; Some 0; Some (String.length (a ++ "." ++ b ++ "." ++ c))]
            !! (2 * 1)%nat) with (Some (Some 0%nat)).
  change ([Some 0; Some e; Some 0; Some (String.length (a ++ "." ++ b ++ "." ++ c))]
            !! (2 * 1 + 1)%nat)
    with (Some (Some (String.length (a ++ "." ++ b ++ "." ++ c)))).
  cbv iota beta. rewrite Nat.sub_0_r.
  replace (a ++ "." ++ b ++ "." ++ c ++ rest) with ((a ++ "." ++ b ++ "." ++ c) ++ rest).
  - apply substring_prefix.
  - rewrite !append_assoc3. reflexivity.
Qed.

Lemma versionRE_triplet_witness :
  startsIn is_digit "-1569965," = false
  /\ versionRE_ReplaceAllString "3.4.6-1569965," = "3.4.6".
Proof.
  split; [reflexivity|].
  apply (versionRE_triplet "3" "4" "6" "-1569965,");
    try discriminate; reflexivity.
Defined.

(** ** The label patterns *)

Lemma Contains_byte_app (b : ascii) (a t : string) :
  Contains (a ++ String b t) (String b EmptyString) = true.
Proof.
  induction a as [|c a IH].
  - change (EmptyString ++ String b t) with (String b t).
    rewrite Contains_cons_byte, Ascii.eqb_refl. reflexivity.
  - change (String c a ++ String b t) with (String c (a ++ String b t)).
    rewrite Contains_cons_byte, IH. apply orb_true_r.
Qed.

Lemma labelsRE_match_braces (pos : nat) (s : string) (cap r : Caps) :
  step labelsRE pos s cap = Some r ->
  exists body t, s = String "{" (body ++ String "}" t).
Proof.
  unfold labelsRE. intros H.
  apply step_Lit in H. destruct H as (t1 & -> & H).
  change (greedy not_newline
            (fun p t => step [Rparen 1; Lit "}"] p t (<[2 * 1 := Some (S pos)]> cap))
            (S pos) t1 = Some r)%nat in H.
  apply greedy_some in H. destruct H as (body & t2 & -> & _ & H).
  change (step [Lit "}"] (S pos + String.length body) t2
               (<[2 * 1 + 1 := Some (S pos + String.length body)]>
                  (<[2 * 1 := Some (S pos)]> cap)) = Some r)%nat in H.
  apply step_Lit in H. destruct H as (t3 & -> & _).
  eauto.
Qed.

Lemma labelsRE_search_braces (ncap : nat) (s : string) :
  forall (pos : nat) (r : Caps),
    search labelsRE ncap pos s = Some r ->
    Contains s "{" = true /\ Contains s "}" = true.
Proof.
  induction s as [|c s IH]; intros pos r H; rewrite search_unfold in H.
  - destruct (step labelsRE pos EmptyString _) eqn:E; [|discriminate].
    apply labelsRE_match_braces in E. destruct E as (? & ? & E). discriminate E.
  - destruct (step labelsRE pos (String c s) _) eqn:E.
    + apply labelsRE_match_braces in E. destruct E as (body & t & E).
      rewrite E. split.
      * rewrite Contains_cons_byte, Ascii.eqb_refl. reflexivity.
      * rewrite Contains_cons_byte. rewrite Contains_byte_app. apply orb_true_r.
    + destruct (IH _ _ H) as [H1 H2].
      rewrite !Contains_cons_byte, H1, H2, !orb_true_r. split; reflexivity.
Qed.

(** X13: a key that lacks the left or the right brace carries no
    label: [parseLabels] returns the empty map, and a sample of such a
    key has no tag of its own. *)
Theorem parseLabels_no_braces (k : string) :
  Contains k "{" = false \/ Contains k "}" = false ->
  parseLabels k = ∅.
Proof.
  intros H. unfold parseLabels, FindStringSubmatch.
  destruct (search labelsRE (2 * S (NumSubexp labelsRE)) 0 k) as [r|] eqn:E;
    [|reflexivity].
  apply labelsRE_search_braces in E. destruct E as [E1 E2].
  destruct H as [H|H]; congruence.
Qed.

Lemma parseLabels_no_braces_witness :
  Contains "zk_foo{bar" "}" = false /\ parseLabels "zk_foo{bar" = ∅.
Proof.
  split; [reflexivity|].
  apply (parseLabels_no_braces "zk_foo{bar"). right. reflexivity.
Defined.

Lemma noneOf_head (b : ascii) (bs : list ascii) (c : ascii) :
  noneOf (b :: bs) c = negb (Ascii.eqb c b) && noneOf bs c.
Proof. unfold noneOf. cbn [existsb]. apply negb_orb. Qed.

Lemma all_in_weaken (cls cls' : ascii -> bool) (s : string) :
  (forall c, cls c = true -> cls' c = true) ->
  all_in cls s = true -> all_in cls' s = true.
Proof.
  intros Hw. induction s as [|c s IH]; [reflexivity|].
  cbn [all_in]. intros H. apply andb_prop in H. destruct H as [Hc Hs].
  rewrite (Hw c Hc), (IH Hs). reflexivity.
Qed.

Lemma noneOf_In (bs : list ascii) (b c : ascii) :
  In b bs -> noneOf bs c = true -> Ascii.eqb c b = false.
Proof.
  unfold noneOf. intros Hin H. apply negb_true_iff in H.
  destruct (Ascii.eqb c b) eqn:E; [|reflexivity].
  apply Ascii.eqb_eq in E. subst c.
  assert (existsb (Ascii.eqb b) bs = true)
    by (apply existsb_exists; exists b; split; [exact Hin|apply Ascii.eqb_refl]).
  congruence.
Qed.

Lemma all_in_noneOf (bs : list ascii) (b : ascii) (s : string) :
  In b bs -> all_in (noneOf bs) s = true -> all_in (noneOf [b]) s = true.
Proof.
  intros Hin. apply all_in_weaken. intros c Hc.
  rewrite noneOf_head, (noneOf_In bs b c Hin Hc). reflexivity.
Qed.

Lemma all_in_not_newline (bs : list ascii) (s : string) :
  In newline bs -> all_in (noneOf bs) s = true -> all_in not_newline s = true.
Proof.
  intros Hin. apply all_in_weaken. intros c Hc.
  unfold not_newline. rewrite (noneOf_In bs newline c Hin Hc). reflexivity.
Qed.

(** The search for a pattern that starts with a literal byte passes
    over a prefix without that byte. *)
Lemma search_skip_Lit (c : ascii) (re : Regexp) (ncap : nat) (t : string) :
  forall (name : string) (pos : nat),
    all_in (noneOf [c]) name = true ->
    search (Lit c :: re) ncap pos (name ++ t)
    = search (Lit c :: re) ncap (pos + String.length name) t.
Proof.
  induction name as [|x name IH]; intros pos H.
  - cbn [String.length]. rewrite Nat.add_0_r. reflexivity.
  - cbn [all_in] in H. apply andb_prop in H. destruct H as [Hx H].
    change (String x name ++ t) with (String x (name ++ t)).
    rewrite search_unfold. cbn [step].
    assert (E : Ascii.eqb c x = false).
    { rewrite Ascii.eqb_sym. apply (noneOf_In [c] c x); [left; reflexivity|exact Hx]. }
    rewrite E, (IH (S pos) H).
    cbn [String.length]. rewrite <- plus_n_Sm. reflexivity.
Qed.

Lemma substring_whole (a : string) :
  String.substring 0 (String.length a) a = a.
Proof.
  induction a as [|c a IH]; [reflexivity|].
  cbn [String.length String.substring]. rewrite IH. reflexivity.
Qed.

Lemma single_split (c : ascii) (b t : string) :
  String c EmptyString = b ++ t -> b <> EmptyString -> t = EmptyString.
Proof.
  intros E Nb. destruct b as [|x [|y b]]; [congruence| |discriminate E].
  change (String c EmptyString = String x t) in E. congruence.
Qed.

(** The brace pattern on a key that ends with its labels. *)
Lemma labelsRE_labels (name body : string) :
  all_in (noneOf ["{"%char]) name = true ->
  all_in not_newline body = true ->
  exists g0 : string,
    FindStringSubmatch labelsRE (name ++ "{" ++ body ++ "}") = [g0; body].
Proof.
  intros Hn Hb. unfold FindStringSubmatch.
  change (NumSubexp labelsRE) with 1%nat.
  unfold labelsRE at 1. rewrite (search_skip_Lit _ _ _ _ name 0 Hn).
  rewrite search_unfold.
  change (step (Lit "{" :: Lparen 1 :: Star not_newline :: Rparen 1 :: Lit "}" :: nil)
               (0 + String.length name) ("{" ++ body ++ "}")
               (<[0 := Some (0 + String.length name)%nat]> (replicate (2 * 2) None)))
    with (greedy not_newline
            (fun p t => step [Rparen 1; Lit "}"] p t
                          [Some (0 + String.length name)%nat; None;
                           Some (S (0 + String.length name)); None])
            (S (0 + String.length name)) (body ++ "}")).
  rewrite (greedy_last not_newline _ body "}" (S (0 + String.length name))
             [Some (0 + String.length name)%nat;
              Some (S (S (0 + String.length name) + String.length body));
              Some (S (0 + String.length name));
              Some (S (0 + String.length name) + String.length body)%nat]).
  - eexists. cbn [seq map]. f_equal. f_equal.
    unfold group.
    change (?l !! (2 * 1)%nat) with (Some (Some (S (0 + String.length name)))).
    change (?l !! (2 * 1 + 1)%nat)
      with (Some (Some (S (0 + String.length name) + String.length body)%nat)).
    cbv iota beta.
    replace (S (0 + String.length name) + String.length body - S (0 + String.length name))%nat
      with (String.length body) by lia.
    replace (S (0 + String.length name)) with (String.length (name ++ "{"))
      by (rewrite length_append; cbn [String.length]; lia).
    replace (name ++ "{" ++ body ++ "}") with ((name ++ "{") ++ body ++ "}")
      by (rewrite append_assoc3; reflexivity).
    rewrite substring_skip. apply substring_prefix.
  - exact Hb.
  - cbn [step]. rewrite Ascii.eqb_refl. reflexivity.
  - intros b t' E Nb _.
    rewrite (single_split _ b t' E Nb). reflexivity.
Qed.

Lemma countByte_app (b : ascii) (a t : string) :
  countByte b (a ++ t) = (countByte b a + countByte b t)%nat.
Proof.
  induction a as [|c a IH]; [reflexivity|].
  change (String c a ++ t) with (String c (a ++ t)).
  cbn [countByte]. rewrite IH. lia.
Qed.

Lemma countByte_none (b : ascii) (s : string) :
  all_in (noneOf [b]) s = true -> countByte b s = 0%nat.
Proof.
  induction s as [|c s IH]; [reflexivity|].
  cbn [all_in countByte]. intros H. apply andb_prop in H. destruct H as [Hc Hs].
  assert (E : Ascii.eqb b c = false).
  { rewrite Ascii.eqb_sym. apply (noneOf_In [b] b c); [left; reflexivity|exact Hc]. }
  rewrite E, (IH Hs). reflexivity.
Qed.

(** What the label pattern needs after the key: an equals sign and two
    double quotes. *)
Lemma labelRE_tail_shape (p : nat) (u : string) (cap r : Caps) :
  step [Rparen 1; Lit "="; Lparen 2; Lit dquote; Star not_newline; Lit dquote; Rparen 2]
       p u cap = Some r ->
  exists x y, u = String "=" (String dquote (x ++ String dquote y)).
Proof.
  intros H.
  change (step (Lit "=" :: Lparen 2 :: Lit dquote :: Star not_newline :: Lit dquote
                  :: Rparen 2 :: nil) p u (<[2 * 1 + 1 := Some p]> cap) = Some r)%nat in H.
  apply step_Lit in H. destruct H as (u1 & -> & H).
  change (step (Lit dquote :: Star not_newline :: Lit dquote :: Rparen 2 :: nil) (S p) u1
               (<[2 * 2 := Some (S p)]> (<[2 * 1 + 1 := Some p]> cap)) = Some r)%nat in H.
  apply step_Lit in H. destruct H as (u2 & -> & H).
  change (greedy not_newline
            (fun q t => step [Lit dquote; Rparen 2] q t
                          (<[2 * 2 := Some (S p)]> (<[2 * 1 + 1 := Some p]> cap)))
            (S (S p)) u2 = Some r)%nat in H.
  apply greedy_some in H. destruct H as (x & u3 & -> & _ & H).
  apply step_Lit in H. destruct H as (y & -> & _).
  eauto.
Qed.

Lemma labelRE_tail_deeper (v b t' : string) (p : nat) (cap : Caps) :
  all_in (noneOf [dquote]) v = true ->
  String "=" (String dquote (v ++ String dquote EmptyString)) = b ++ t' ->
  b <> EmptyString ->
  step [Rparen 1; Lit "="; Lparen 2; Lit dquote; Star not_newline; Lit dquote; Rparen 2]
       p t' cap = None.
Proof.
  intros Hv E Nb.
  destruct (step _ p t' cap) as [r|] eqn:Es; [exfalso|reflexivity].
  apply labelRE_tail_shape in Es. destruct Es as (x & y & ->).
  assert (Q : Ascii.eqb dquote "=" = false) by reflexivity.
  pose proof (f_equal (countByte dquote) E) as C.
  rewrite countByte_app in C.
  cbn [countByte] in C. rewrite !countByte_app in C. cbn [countByte] in C.
  rewrite Q, Ascii.eqb_refl, (countByte_none dquote v Hv) in C.
  destruct b as [|c1 [|c2 b]]; [congruence| |].
  - apply (f_equal (fun s => match s with
                             | String _ (String c _) => Ascii.eqb dquote c
                             | _ => false
                             end)) in E.
    change (Ascii.eqb dquote dquote = Ascii.eqb dquote "=") in E.
    rewrite Ascii.eqb_refl, Q in E. discriminate.
  - pose proof (f_equal (fun s => match s with
                                  | String c _ => c
                                  | EmptyString => "="%char
                                  end) E) as E1.
    pose proof (f_equal (fun s => match s with
                                  | String _ (String c _) => c
                                  | _ => dquote
                                  end) E) as E2.
    change ("="%char = c1) in E1. change (dquote = c2) in E2. subst c1 c2.
    cbn [countByte] in C. rewrite Q, Ascii.eqb_refl in C. lia.
Qed.

(** The label pattern on one label: the key is the longest text before
    an equals sign that a quoted value follows. *)
Lemma labelRE_label (k v : string) :
  all_in not_newline k = true ->
  all_in not_newline v = true ->
  all_in (noneOf [dquote]) v = true ->
  exists g0 : string,
    FindStringSubmatch labelRE (labelText (k, v)) = [g0; k; quoted v].
Proof.
  intros Hk Hv Hq. unfold FindStringSubmatch, labelText. cbn [fst snd].
  change (NumSubexp labelRE) with 2%nat.
  rewrite search_unfold.
  change (step labelRE 0 (k ++ "=" ++ quoted v)
               (<[0 := Some 0]> (replicate (2 * 3) None)))%nat
    with (greedy not_newline
            (fun p u => step [Rparen 1; Lit "="; Lparen 2; Lit dquote; Star not_newline;
                              Lit dquote; Rparen 2] p u
                          [Some 0%nat; None; Some 0%nat; None; None; None])
            0 (k ++ String "=" (String dquote (v ++ String dquote EmptyString)))).
  rewrite (greedy_last not_newline _ k _ 0
             [Some 0%nat;
              Some (S (S (S (0 + String.length k)) + String.length v));
              Some 0%nat;
              Some (0 + String.length k)%nat;
              Some (S (0 + String.length k));
              Some (S (S (S (0 + String.length k)) + String.length v))]).
  - eexists. cbn [seq map]. f_equal. f_equal; [|f_equal].
    + unfold group.
      change (?l !! (2 * 1)%nat) with (Some (Some 0%nat)).
      change (?l !! (2 * 1 + 1)%nat) with (Some (Some (0 + String.length k)%nat)).
      cbv iota beta. rewrite Nat.sub_0_r. cbn [Nat.add].
      apply substring_prefix.
    + unfold group.
      change (?l !! (2 * 2)%nat) with (Some (Some (S (0 + String.length k)))).
      change (?l !! (2 * 2 + 1)%nat)
        with (Some (Some (S (S (S (0 + String.length k)) + String.length v)))).
      cbv iota beta.
      replace (S (S (S (0 + String.length k)) + String.length v) - S (0 + String.length k))%nat
        with (String.length (quoted v))
        by (unfold quoted; cbn [String.length]; rewrite length_append;
            cbn [String.length]; lia).
      replace (S (0 + String.length k)) with (String.length (k ++ "="))
        by (rewrite length_append; cbn [String.length]; lia).
      replace (k ++ "=" ++ quoted v) with ((k ++ "=") ++ quoted v)
        by (rewrite append_assoc3; reflexivity).
      rewrite substring_skip. apply substring_whole.
  - exact Hk.
  - change (greedy not_newline
              (fun q t => step [Lit dquote; Rparen 2] q t
                            [Some 0%nat; None; Some 0%nat; Some (0 + String.length k)%nat;
                             Some (S (0 + String.length k)); None])
              (S (S (0 + String.length k))) (v ++ String dquote EmptyString)
            = Some [Some 0%nat;
                    Some (S (S (S (0 + String.length k)) + String.length v));
                    Some 0%nat;
                    Some (0 + String.length k)%nat;
                    Some (S (0 + String.length k));
                    Some (S (S (S (0 + String.length k)) + String.length v))]).
    apply greedy_last.
    + exact Hv.
    + cbn [step]. rewrite Ascii.eqb_refl. reflexivity.
    + intros b t' E Nb _. rewrite (single_split _ b t' E Nb). reflexivity.
  - intros b t' E Nb _.
    apply (labelRE_tail_deeper v b t'); assumption.
Qed.

(** ** Splitting the labels *)

Lemma Split_no_sep (sep : ascii) (a : string) :
  all_in (noneOf [sep]) a = true -> Split a sep = [a].
Proof.
  induction a as [|c a IH]; [reflexivity|].
  cbn [all_in]. intros H. apply andb_prop in H. destruct H as [Hc Ha].
  cbn [Split]. rewrite (noneOf_In [sep] sep c (or_introl eq_refl) Hc), (IH Ha).
  reflexivity.
Qed.

Lemma Split_app_sep (sep : ascii) (a t : string) :
  all_in (noneOf [sep]) a = true ->
  Split (a ++ String sep t) sep = a :: Split t sep.
Proof.
  induction a as [|c a IH].
  - intros _. change (EmptyString ++ String sep t) with (String sep t).
    cbn [Split]. rewrite Ascii.eqb_refl. reflexivity.
  - cbn [all_in]. intros H. apply andb_prop in H. destruct H as [Hc Ha].
    change (String c a ++ String sep t) with (String c (a ++ String sep t)).
    cbn [Split]. rewrite (noneOf_In [sep] sep c (or_introl eq_refl) Hc), (IH Ha).
    reflexivity.
Qed.

(** Joining with a separator and splitting on it gives the pieces back
    when none of them holds the separator. *)
Lemma Split_concat (sep : ascii) (xs : list string) :
  xs <> [] -> Forall (fun x => all_in (noneOf [sep]) x = true) xs ->
  Split (String.concat (String sep EmptyString) xs) sep = xs.
Proof.
  induction xs as [|x xs IH]; [congruence|].
  intros _ F. inversion F as [|? ? Hx Hxs]; subst.
  destruct xs as [|y xs].
  - cbn [String.concat]. apply Split_no_sep. exact Hx.
  - rewrite concat_cons by discriminate.
    change (x ++ String sep EmptyString ++ String.concat (String sep EmptyString) (y :: xs))
      with (x ++ String sep (String.concat (String sep EmptyString) (y :: xs))).
    rewrite (Split_app_sep sep x _ Hx), IH; [reflexivity|discriminate|exact Hxs].
Qed.

Lemma all_in_concat (cls : ascii -> bool) (sep : ascii) (xs : list string) :
  cls sep = true -> Forall (fun x => all_in cls x = true) xs ->
  all_in cls (String.concat (String sep EmptyString) xs) = true.
Proof.
  intros Hsep. induction xs as [|x xs IH]; intros F; [reflexivity|].
  inversion F as [|? ? Hx Hxs]; subst.
  destruct xs as [|y xs]; [exact Hx|].
  rewrite concat_cons by discriminate.
  rewrite !all_in_app, Hx, (IH Hxs). cbn [all_in]. rewrite Hsep. reflexivity.
Qed.

Lemma labelText_class (cls : ascii -> bool) (kv : string * string) :
  cls "="%char = true -> cls dquote = true ->
  all_in cls (fst kv) = true -> all_in cls (snd kv) = true ->
  all_in cls (labelText kv) = true.
Proof.
  intros He Hq Hk Hv. unfold labelText, quoted.
  rewrite !all_in_app. cbn [all_in]. rewrite all_in_app. cbn [all_in].
  rewrite He, Hq, Hk, Hv. reflexivity.
Qed.

Lemma plainLabel_no_comma (kv : string * string) :
  plainLabel kv -> all_in (noneOf [comma]) (labelText kv) = true.
Proof.
  intros [Hk Hv]. apply labelText_class; try reflexivity.
  - apply (all_in_noneOf [newline; comma]); [right; left; reflexivity|exact Hk].
  - apply (all_in_noneOf [newline; comma; dquote]); [right; left; reflexivity|exact Hv].
Qed.

Lemma plainLabel_no_newline (kv : string * string) :
  plainLabel kv -> all_in not_newline (labelText kv) = true.
Proof.
  intros [Hk Hv]. apply labelText_class; try reflexivity.
  - apply (all_in_not_newline [newline; comma]); [left; reflexivity|exact Hk].
  - apply (all_in_not_newline [newline; comma; dquote]); [left; reflexivity|exact Hv].
Qed.

Lemma fold_labels (kvs : list (string * string)) :
  Forall plainLabel kvs ->
  forall acc : gmap string string,
    fold_left
      (fun (labels : gmap string string) (labelStr : string) =>
         let m := FindStringSubmatch labelRE labelStr in
         if (length m =? 3)%nat
         then <[nth 1 m EmptyString := nth 2 m EmptyString]> labels
         else labels)
      (map labelText kvs) acc
    = fold_left (fun (m : gmap string string) (kv : string * string) =>
                   <[fst kv := quoted (snd kv)]> m) kvs acc.
Proof.
  induction 1 as [|[k v] kvs [Hk Hv] _ IH]; intros acc; [reflexivity|].
  cbn [map fold_left fst snd] in *.
  destruct (labelRE_label k v) as [g0 E].
  - apply (all_in_not_newline [newline; comma]); [left; reflexivity|exact Hk].
  - apply (all_in_not_newline [newline; comma; dquote]); [left; reflexivity|exact Hv].
  - apply (all_in_noneOf [newline; comma; dquote]);
      [right; right; left; reflexivity|exact Hv].
  - rewrite E. cbn [length Nat.eqb nth]. apply IH.
Qed.

Lemma parseLabels_labels (name : string) (kvs : list (string * string)) :
  all_in (noneOf ["{"%char]) name = true ->
  Forall plainLabel kvs ->
  parseLabels (labelledKey name kvs) = labelMap kvs.
Proof.
  intros Hn F. unfold parseLabels, labelledKey, labelMap.
  destruct (labelsRE_labels name
              (String.concat (String comma EmptyString) (map labelText kvs)) Hn)
    as [g0 E].
  { apply all_in_concat; [reflexivity|].
    apply List.Forall_map. eapply List.Forall_impl; [|exact F].
    intros kv. apply plainLabel_no_newline. }
  rewrite E. cbn [length Nat.ltb Nat.leb nth].
  destruct kvs as [|kv kvs]; [reflexivity|].
  rewrite Split_concat.
  - apply fold_labels. exact F.
  - discriminate.
  - apply List.Forall_map. eapply List.Forall_impl; [|exact F].
    intros kv'. apply plainLabel_no_comma.
Qed.

(** X14: [parseLabels] reads back the labels a key spells. For a name
    without a left brace and labels whose keys and values hold no line
    feed and no comma, and whose values hold no double quote, the map of
    the key [name{k1="v1",...,kn="vn"}] has exactly the keys [k1] to
    [kn], each with its value between double quotes, the later of two
    equal keys winning. *)
Theorem parseLabels_labelledKey (name : string) (kvs : list (string * string)) :
  all_in (noneOf ["{"%char]) name = true ->
  Forall plainLabel kvs ->
  parseLabels (labelledKey name kvs) = labelMap kvs.
Proof. apply parseLabels_labels. Qed.

Lemma parseLabels_labelledKey_witness :
  Forall plainLabel [("path", "/data=1"); ("a=b", "x"); ("path", "/log")]
  /\ parseLabels (labelledKey "zk_disk" [("path", "/data=1"); ("a=b", "x"); ("path", "/log")])
     = {["path" := quoted "/log"; "a=b" := quoted "x"]}.
Proof.
  assert (F : Forall plainLabel [("path", "/data=1"); ("a=b", "x"); ("path", "/log")])
    by (repeat constructor).
  split; [exact F|].
  rewrite (parseLabels_labelledKey "zk_disk" _ eq_refl F).
  vm_compute. reflexivity.
Defined.

(** ** A comma inside a label value *)

Lemma labelRE_match_quotes (pos : nat) (s : string) (cap r : Caps) :
  step labelRE pos s cap = Some r -> (2 <= countByte dquote s)%nat.
Proof.
  unfold labelRE. intros H.
  change (greedy not_newline
            (fun p u => step [Rparen 1; Lit "="; Lparen 2; Lit dquote; Star not_newline;
                              Lit dquote; Rparen 2] p u (<[2 * 1 := Some pos]> cap))
            pos s = Some r)%nat in H.
  apply greedy_some in H. destruct H as (a & t & -> & _ & H).
  apply labelRE_tail_shape in H. destruct H as (x & y & ->).
  rewrite countByte_app. cbn [countByte]. rewrite countByte_app. cbn [countByte].
  rewrite Ascii.eqb_refl. lia.
Qed.

Lemma labelRE_search_quotes (ncap : nat) (s : string) :
  forall (pos : nat) (r : Caps),
    search labelRE ncap pos s = Some r -> (2 <= countByte dquote s)%nat.
Proof.
  induction s as [|c s IH]; intros pos r H; rewrite search_unfold in H.
  - destruct (step labelRE pos EmptyString _) eqn:E; [|discriminate].
    apply labelRE_match_quotes in E. exact E.
  - destruct (step labelRE pos (String c s) _) eqn:E.
    + apply labelRE_match_quotes in E. exact E.
    + apply IH in H. cbn [countByte]. lia.
Qed.

(** A piece with fewer than two double quotes is no label. *)
Lemma labelRE_no_label (s : string) :
  (countByte dquote s < 2)%nat -> FindStringSubmatch labelRE s = [].
Proof.
  intros H. unfold FindStringSubmatch.
  destruct (search labelRE (2 * S (NumSubexp labelRE)) 0 s) as [r|] eqn:E;
    [|reflexivity].
  apply labelRE_search_quotes in E. lia.
Qed.

(** X15: a comma inside a quoted label value loses the label. The
    split on commas cuts the label in two pieces with one double quote
    each, neither of which the label pattern matches, so the key
    [name{k="x,y"}] gets the empty map. *)
Theorem parseLabels_comma_in_value (name k x y : string) :
  all_in (noneOf ["{"%char]) name = true ->
  all_in (noneOf [newline; comma; dquote]) k = true ->
  all_in (noneOf [newline; comma; dquote]) x = true ->
  all_in (noneOf [newline; comma; dquote]) y = true ->
  parseLabels (labelledKey name [(k, x ++ "," ++ y)]) = ∅.
Proof.
  intros Hn Hk Hx Hy.
  assert (Nk := all_in_not_newline [newline; comma; dquote] k (or_introl eq_refl) Hk).
  assert (Nx := all_in_not_newline [newline; comma; dquote] x (or_introl eq_refl) Hx).
  assert (Ny := all_in_not_newline [newline; comma; dquote] y (or_introl eq_refl) Hy).
  assert (Ck := all_in_noneOf [newline; comma; dquote] comma k (or_intror (or_introl eq_refl)) Hk).
  assert (Cx := all_in_noneOf [newline; comma; dquote] comma x (or_intror (or_introl eq_refl)) Hx).
  assert (Cy := all_in_noneOf [newline; comma; dquote] comma y (or_intror (or_introl eq_refl)) Hy).
  assert (Qk := all_in_noneOf [newline; comma; dquote] dquote k (or_intror (or_intror (or_introl eq_refl))) Hk).
  assert (Qx := all_in_noneOf [newline; comma; dquote] dquote x (or_intror (or_intror (or_introl eq_refl))) Hx).
  assert (Qy := all_in_noneOf [newline; comma; dquote] dquote y (or_intror (or_intror (or_introl eq_refl))) Hy).
  assert (Eb : String.concat (String comma EmptyString) (map labelText [(k, x ++ "," ++ y)])
               = (k ++ "=" ++ String dquote x) ++ String comma (y ++ String dquote EmptyString)).
  { cbn [map String.concat]. unfold labelText, quoted. cbn [fst snd].
    rewrite !append_assoc3. reflexivity. }
  unfold parseLabels, labelledKey. rewrite Eb.
  destruct (labelsRE_labels name
              ((k ++ "=" ++ String dquote x) ++ String comma (y ++ String dquote EmptyString))
              Hn) as [g0 E].
  { rewrite !all_in_app. cbn [all_in]. rewrite !all_in_app. cbn [all_in].
    rewrite Nk, Nx, Ny. reflexivity. }
  rewrite E. cbn [length Nat.ltb Nat.leb nth].
  rewrite (Split_app_sep comma).
  - rewrite (Split_no_sep comma).
    + cbn [fold_left]. rewrite !labelRE_no_label; [reflexivity| |].
      * rewrite !countByte_app. cbn [countByte]. rewrite Ascii.eqb_refl.
        change (Ascii.eqb dquote "=") with false.
        rewrite (countByte_none dquote k Qk), (countByte_none dquote x Qx). lia.
      * rewrite countByte_app. cbn [countByte]. rewrite Ascii.eqb_refl.
        rewrite (countByte_none dquote y Qy). lia.
    + rewrite all_in_app. cbn [all_in]. rewrite Cy. reflexivity.
  - rewrite !all_in_app. cbn [all_in]. rewrite Ck, Cx. reflexivity.
Qed.

Lemma parseLabels_comma_in_value_witness :
  all_in (noneOf [newline; comma; dquote]) "path" = true
  /\ parseLabels (labelledKey "zk_disk" [("path", "/a" ++ "," ++ "/b")]) = ∅.
Proof.
  split; [reflexivity|].
  apply (parseLabels_comma_in_value "zk_disk" "path" "/a" "/b"); reflexivity.
Defined.

(** ** Label-bearing metrics *)

Lemma Replace_app (a b : string) :
  metricNameReplacer_Replace (a ++ b)
  = metricNameReplacer_Replace a ++ metricNameReplacer_Replace b.
Proof.
  induction a as [|c a IH]; [reflexivity|].
  change (String c a ++ b) with (String c (a ++ b)).
  rewrite !metricNameReplacer_cons, IH. reflexivity.
Qed.

Lemma Replace_concat (sep : ascii) (xs : list string) :
  metricNameReplacer_Replace (String sep EmptyString) = String sep EmptyString ->
  metricNameReplacer_Replace (String.concat (String sep EmptyString) xs)
  = String.concat (String sep EmptyString) (map metricNameReplacer_Replace xs).
Proof.
  intros Hsep. induction xs as [|x xs IH]; [reflexivity|].
  destruct xs as [|y xs]; [reflexivity|].
  cbn [map] in *. rewrite !concat_cons by discriminate.
  rewrite !Replace_app, Hsep, IH. reflexivity.
Qed.

Lemma Replace_labelText (kv : string * string) :
  metricNameReplacer_Replace (labelText kv) = labelText (replacedLabel kv).
Proof.
  unfold labelText, replacedLabel, quoted. cbn [fst snd].
  rewrite !Replace_app, !metricNameReplacer_cons, Replace_app. reflexivity.
Qed.

Lemma Replace_labelledKey (name : string) (kvs : list (string * string)) :
  metricNameReplacer_Replace (labelledKey name kvs)
  = labelledKey (metricNameReplacer_Replace name) (map replacedLabel kvs).
Proof.
  unfold labelledKey.
  rewrite !Replace_app, (Replace_concat comma) by reflexivity.
  rewrite map_map.
  rewrite (map_ext _ _ Replace_labelText), <- map_map. reflexivity.
Qed.

(** The replacer keeps a string clear of the bytes it was clear of,
    the underscore apart. *)
Lemma Replace_noneOf (bs : list ascii) (s : string) :
  noneOf bs "_"%char = true ->
  all_in (noneOf bs) s = true ->
  all_in (noneOf bs) (metricNameReplacer_Replace s) = true.
Proof.
  intros Hu. induction s as [|c s IH]; [reflexivity|].
  rewrite metricNameReplacer_cons. cbn [all_in].
  intros H. apply andb_prop in H. destruct H as [Hc Hs].
  rewrite (IH Hs).
  destruct (Ascii.eqb "-" c); [rewrite Hu; reflexivity|].
  destruct (Ascii.eqb "." c); [rewrite Hu; reflexivity|].
  rewrite Hc. reflexivity.
Qed.

Lemma replacedLabel_plain (kv : string * string) :
  plainLabel kv -> plainLabel (replacedLabel kv).
Proof.
  intros [Hk Hv]. split; cbn [replacedLabel fst snd].
  - apply Replace_noneOf; [reflexivity|exact Hk].
  - apply Replace_noneOf; [reflexivity|exact Hv].
Qed.

Lemma labelledKey_brace (name : string) (kvs : list (string * string)) :
  Contains (labelledKey name kvs) "{" = true.
Proof. unfold labelledKey. apply Contains_byte_app. Qed.

Lemma eqb_no_brace (key k0 : string) :
  Contains key "{" = true -> Contains k0 "{" = false -> String.eqb key k0 = false.
Proof.
  intros H1 H0. apply String.eqb_neq. intros ->. congruence.
Qed.

(** X16: a line whose key spells labels, [name{k1="v1",...}], and
    whose value is numeric pushes one sample. Its name is the whole key
    after the replacement of [-] and [.], and its own tags are the
    labels as the replacement left them: a dot or a dash in a label
    value reaches the tag as an underscore. *)
Theorem mntrLine_labelled_metric (pf : string -> bool) (tags : gmap string string)
    (l name value : string) (kvs : list (string * string)) (rest : list string)
    (w : World) :
  Fields l = labelledKey name kvs :: value :: rest ->
  isDigit pf value = true ->
  all_in (noneOf ["{"%char]) name = true ->
  Forall plainLabel kvs ->
  mntrLine pf tags l w =
    PushFront (NewSample (metricNameReplacer_Replace (labelledKey name kvs))
                 (StringValue value)
                 [tags; labelMap (map replacedLabel kvs)]) w.
Proof.
  intros E Hd Hn F. unfold mntrLine.
  rewrite (Fields_nonempty_line _ _ _ E), E.
  change (index (labelledKey name kvs :: value :: rest) 0)
    with (ret (A := string) (labelledKey name kvs)).
  change (index (labelledKey name kvs :: value :: rest) 1) with (ret (A := string) value).
  unfold bind, ret.
  rewrite !(eqb_no_brace _ _ (labelledKey_brace name kvs)) by reflexivity.
  rewrite Hd. cbn [negb].
  rewrite Replace_labelledKey, labelledKey_brace.
  rewrite parseLabels_labels.
  - reflexivity.
  - apply Replace_noneOf; [reflexivity|exact Hn].
  - apply List.Forall_map. eapply List.Forall_impl; [|exact F].
    intros kv. apply replacedLabel_plain.
Qed.

Lemma mntrLine_labelled_metric_witness :
  Fields (labelledKey "zk-disk" [("path", "/var/lib.zk")] ++ " 42")
  = [labelledKey "zk-disk" [("path", "/var/lib.zk")]; "42"]
  /\ slist (fst (mntrLine (fun _ => false) tags1
                   (labelledKey "zk-disk" [("path", "/var/lib.zk")] ++ " 42") emptyWorld))
     = [NewSample ("zk_disk{path=" ++ quoted "/var/lib_zk" ++ "}") (StringValue "42")
          [tags1; {["path" := quoted "/var/lib_zk"]}]].
Proof.
  split; [reflexivity|].
  rewrite (mntrLine_labelled_metric (fun _ => false) tags1
             (labelledKey "zk-disk" [("path", "/var/lib.zk")] ++ " 42") "zk-disk" "42"
             [("path", "/var/lib.zk")] [] emptyWorld eq_refl eq_refl eq_refl).
  - vm_compute. reflexivity.
  - repeat constructor.
Defined.

(** ** Plain keys *)

Lemma Replace_Contains_brace (key : string) :
  Contains (metricNameReplacer_Replace key) "{" = Contains key "{".
Proof.
  induction key as [|c key IH]; [reflexivity|].
  rewrite metricNameReplacer_cons, !Contains_cons_byte, IH.
  destruct (Ascii.eqb "-" c) eqn:E1.
  - apply Ascii.eqb_eq in E1. subst c. reflexivity.
  - destruct (Ascii.eqb "." c) eqn:E2; [|reflexivity].
    apply Ascii.eqb_eq in E2. subst c. reflexivity.
Qed.

(** X17: a line whose key is none of the three named keys and holds
    no brace pushes one sample when [isDigit] accepts its value, named
    by the key after the replacement, valued by the text of the value
    and tagged with the global tags alone; when [isDigit] rejects the
    value the line pushes nothing and logs the not-digit warning, and
    the loop goes on either way. *)
Theorem mntrLine_plain_key (pf : string -> bool) (tags : gmap string string)
    (l key value : string) (rest : list string) (w : World) :
  Fields l = key :: value :: rest ->
  plainKey key ->
  Contains key "{" = false ->
  mntrLine pf tags l w =
    if isDigit pf value
    then PushFront (NewSample (metricNameReplacer_Replace key) (StringValue value) [tags]) w
    else Log (LogNotDigit key value) w.
Proof.
  intros E (K1 & K2 & K3) Hb. unfold mntrLine.
  rewrite (Fields_nonempty_line _ _ _ E), E.
  change (index (key :: value :: rest) 0) with (ret (A := string) key).
  change (index (key :: value :: rest) 1) with (ret (A := string) value).
  unfold bind, ret.
  apply String.eqb_neq in K1, K2, K3. rewrite K1, K2, K3.
  destruct (isDigit pf value); [|reflexivity].
  cbn [negb]. rewrite Replace_Contains_brace, Hb. reflexivity.
Qed.

Lemma mntrLine_plain_key_witness :
  Fields "zk_avg.latency 0.25" = ["zk_avg.latency"; "0.25"]
  /\ plainKey "zk_avg.latency"
  /\ slist (fst (mntrLine shortDecimal tags1 "zk_avg.latency 0.25" emptyWorld))
     = [NewSample "zk_avg_latency" (StringValue "0.25") [tags1]].
Proof.
  assert (P : plainKey "zk_avg.latency") by (repeat split; discriminate).
  split; [reflexivity|]. split; [exact P|].
  rewrite (mntrLine_plain_key shortDecimal tags1 "zk_avg.latency 0.25" "zk_avg.latency"
             "0.25" [] emptyWorld eq_refl P eq_refl).
  vm_compute. reflexivity.
Defined.

(** ** The launches of Gather *)

Lemma launchHosts_run (ins : Instance) (zkHosts : list string) :
  forall w : World,
    launchHosts ins zkHosts w =
      (mkWorld (slist w) (logged w) (wire w) (wg w + Z.of_nat (length zkHosts)),
       Some (map (pair ins) zkHosts)).
Proof.
  induction zkHosts as [|h hs IH]; intros w.
  - destruct w. cbn [launchHosts ret length map slist logged wire wg].
    rewrite Z.add_0_r. reflexivity.
  - cbn [launchHosts]. unfold bind at 1, wgAdd. unfold bind at 1.
    rewrite IH. cbn [slist logged wire wg length map ret].
    rewrite Nat2Z.inj_succ. unfold ret. f_equal. f_equal. lia.
Qed.

Lemma launchInstances_run (inss : list Instance) :
  forall w : World,
    launchInstances inss w =
      (mkWorld (slist w) (noTarget inss ++ logged w) (wire w)
               (wg w + Z.of_nat (length (hostTasks inss))),
       Some (hostTasks inss)).
Proof.
  unfold noTarget, hostTasks.
  induction inss as [|ins inss IH]; intros w.
  - destruct w. cbn. rewrite Z.add_0_r. reflexivity.
  - cbn [launchInstances flat_map]. unfold bind at 1.
    destruct (ZkHosts ins) as [|h hs] eqn:Eh.
    + cbn [length Nat.eqb]. unfold bind at 1, Log. cbn [ret].
      unfold bind at 1. rewrite IH. cbn [slist logged wire wg ret map app].
      unfold ret. cbn [rev]. rewrite <- List.app_assoc. reflexivity.
    + cbn [length Nat.eqb]. rewrite launchHosts_run.
      unfold bind at 1. rewrite IH. cbn [slist logged wire wg ret app].
      rewrite length_app, length_map, Nat2Z.inj_add.
      unfold ret. f_equal. f_equal. lia.
Qed.

Lemma Gather_run (z : Zookeeper) (w : World) :
  Gather z w =
    (mkWorld (slist w) (noTarget (Instances z) ++ logged w) (wire w)
             (wg w + Z.of_nat (length (hostTasks (Instances z)))),
     Some (mkZookeeper (Instances z) ((Counter z + 1) mod 2 ^ 64),
           hostTasks (Instances z))).
Proof.
  unfold Gather, bind. rewrite launchInstances_run. reflexivity.
Qed.

(** X18: the thread of [Gather] starts one task for every host of
    every instance, in order, and adds exactly their number to the wait
    group; an instance without a host starts no task and gets one
    no-target line in the log; the samples and the connections are left
    alone, the counter goes up by one (modulo 2^64) and nothing panics,
    an empty list of instances included. *)
Theorem Gather_launches (z : Zookeeper) (w : World) :
  Gather z w =
    (mkWorld (slist w) (noTarget (Instances z) ++ logged w) (wire w)
             (wg w + Z.of_nat (length (hostTasks (Instances z)))),
     Some (mkZookeeper (Instances z) ((Counter z + 1) mod 2 ^ 64),
           hostTasks (Instances z))).
Proof. apply Gather_run. Qed.

Lemma Gather_two_instances :
  Gather (mkZookeeper [insBlank; ins2] (2 ^ 64 - 1)) emptyWorld =
    (mkWorld [] [LogNoTarget "c0"] [] 3,
     Some (mkZookeeper [insBlank; ins2] 0,
           [(ins2, "10.0.0.1:2181"); (ins2, "10.0.0.2:2181")])).
Proof. rewrite Gather_run. reflexivity. Qed.

(** ** How many samples a reply gives *)

Lemma mntrLine_length (pf : string -> bool) (tags : gmap string string) (l : string)
    (w : World) :
  (length (slist (fst (mntrLine pf tags l w))) <= S (length (slist w)))%nat.
Proof.
  destruct (keyValueLine_dec l) as [[->|H]|[Hl Hf]].
  - cbn. lia.
  - destruct (Fields l) as [|key [|value rest]] eqn:E; simpl in H; try lia.
    destruct (mntrLine_fields pf tags l key value rest w E) as [[s ->]| ->]; cbn; lia.
  - rewrite (mntrLine_short_line_panics pf tags l w Hl Hf). cbn. lia.
Qed.

Lemma forRange_length (pf : string -> bool) (tags : gmap string string)
    (ls : list string) :
  forall w : World,
    (length (slist (fst (forRange ls (mntrLine pf tags) w)))
     <= length (slist w) + length ls)%nat.
Proof.
  induction ls as [|l ls IH]; intros w; cbn [forRange].
  - cbn. lia.
  - unfold bind. pose proof (mntrLine_length pf tags l w) as H.
    destruct (mntrLine pf tags l w) as [w' [[]|]]; cbn [fst] in *.
    + specialize (IH w'). cbn [length]. lia.
    + cbn [length]. lia.
Qed.

(** X19: a reply adds at least one sample and at most one more than
    it has lines: [zk_up], and one sample for a line at most. *)
Theorem gatherMntrResult_sample_count (pf : string -> bool) (conn : Conn)
    (ins : Instance) (tags : gmap string string) (w : World) :
  (length (slist w) + 1
   <= length (slist (fst (gatherMntrResult pf conn ins tags w)))
   <= length (slist w) + 1 + length (Split (ReadData conn) newline))%nat.
Proof.
  destruct (Split_firstLine (ReadData conn)) as [rest E].
  destruct (gatherMntrResult_world pf conn ins tags w) as (_ & _ & [newer X]).
  split.
  - rewrite X, length_app. cbn [length]. lia.
  - clear X. rewrite (gatherMntrResult_lines pf conn ins tags w rest E), E.
    destruct (Contains (firstLine (ReadData conn)) cmdNotExecutedSffx).
    + cbn. lia.
    + destruct (String.eqb (firstLine (ReadData conn)) instanceNotServingMessage).
      * cbn. lia.
      * unfold bind at 1.
        change (PushFront (NewSample "zk_up" (IntValue 1) [tags]) (afterCmd conn "mntr" w))
          with (mkWorld (NewSample "zk_up" (IntValue 1) [tags] :: slist w)
                        (logged (afterCmd conn "mntr" w))
                        (wire (afterCmd conn "mntr" w)) (wg w), Some tt).
        cbv iota beta.
        pose proof (forRange_length pf tags (firstLine (ReadData conn) :: rest)
                      (mkWorld (NewSample "zk_up" (IntValue 1) [tags] :: slist w)
                               (logged (afterCmd conn "mntr" w))
                               (wire (afterCmd conn "mntr" w)) (wg w))) as H.
        cbn [slist length] in H. cbn [length]. lia.
Qed.
